(** * binconvert: the layout descriptor compiler and the byte-order converter

    A shallow embedding of [convert.py] (functions [gen_format_string] and
    [convert], and the lines of [main] that call them) together with the
    part of Python's [struct] module and of the [str] methods those
    functions call.

    Python semantics assumed: the Python 2 reading of the source, in which
    [/] on two integers is floor division (the docstring example
    [gen_format_string(["i", "8s:*"])] = ["i8s8s"] for 20 bytes needs it; with
    Python 3's true division line 143 would multiply a string by a float)
    and a file's contents are a byte string.  Integers are unbounded, as
    Python's are; the limits of the machine are not modelled: neither the
    [struct] module's overflow error for formats whose size exceeds the C
    [ssize_t] range, nor MemoryError on a string or a buffer too large to
    allocate.  Where [struct] or [int] accept more in one Python version
    than in another (format characters added later, a repeat count left at
    the end of a format, digit separators), the embedding accepts what every
    version accepts: a format it accepts is accepted by the program, a
    format it refuses is refused by some version, not by all.  So it is
    for the NUL character: CPython 2.7 reads a format up to its first NUL,
    later versions refuse the character, and the embedding refuses it.  The
    statements below conclude a refusal of the program only from a cause
    that every version refuses (a brace, a second byte-order character),
    and leave out the strings with a NUL where what comes after it
    matters. *)

From Stdlib Require Import ZArith Lia String Ascii List.
From stdpp Require Import base option list strings pretty gmap.
From coqutil Require Import Word.LittleEndianList Byte.

Local Open Scope string_scope.
Local Open Scope list_scope.
Local Open Scope Z_scope.

(** ** Python's [str] methods used by the source *)

Module Py.

(** [s.split(sep)] for a one-character separator: always at least one part. *)
Fixpoint split (sep : ascii) (s : string) : list string :=
  match s with
  | EmptyString => [EmptyString]
  | String c s' =>
      if Ascii.eqb c sep then EmptyString :: split sep s'
      else match split sep s' with
           | h :: t => String c h :: t
           | [] => [String c EmptyString]
           end
  end.

(** [s[-1]]: the last character; [None] stands for IndexError on the empty string. *)
Fixpoint last_char (s : string) : option ascii :=
  match s with
  | EmptyString => None
  | String c EmptyString => Some c
  | String _ s' => last_char s'
  end.

(** [n * s]: the string repeated, empty when [n <= 0]. *)
Fixpoint rep (n : nat) (s : string) : string :=
  match n with
  | O => EmptyString
  | S n' => s +:+ rep n' s
  end.

Definition mul (n : Z) (s : string) : string := rep (Z.to_nat n) s.

(** [s.replace(c, t)] for a one-character [c]. *)
Fixpoint replace (c : ascii) (t : string) (s : string) : string :=
  match s with
  | EmptyString => EmptyString
  | String a s' =>
      if Ascii.eqb a c then t +:+ replace c t s'
      else String a (replace c t s')
  end.

(** [str(n)] for an integer. *)
Definition str (n : Z) : string := pretty n.

Definition is_digit (c : ascii) : bool :=
  ((48 <=? N_of_ascii c) && (N_of_ascii c <=? 57))%N.

Definition digit_val (c : ascii) : nat := N.to_nat (N_of_ascii c - 48).

(** C's [isspace] in the "C" locale: blank, \t, \n, \v, \f, \r. *)
Definition is_space (c : ascii) : bool :=
  ((N_of_ascii c =? 32) || ((9 <=? N_of_ascii c) && (N_of_ascii c <=? 13)))%N.

Fixpoint digits (s : string) (acc : Z) : option Z :=
  match s with
  | EmptyString => Some acc
  | String c s' =>
      if is_digit c then digits s' (10 * acc + Z.of_nat (digit_val c))
      else None
  end.

Fixpoint lstrip (s : string) : string :=
  match s with
  | String c s' => if is_space c then lstrip s' else s
  | EmptyString => EmptyString
  end.

Definition strip (s : string) : string :=
  String.rev (lstrip (String.rev (lstrip s))).

(** [int(s)] on a string: surrounding blanks are dropped, one sign is
    accepted, and what is left must be a non-empty run of decimal digits;
    [None] stands for ValueError. *)
Definition int (s : string) : option Z :=
  match strip s with
  | EmptyString => None
  | String c r =>
      if Ascii.eqb c "-" then
        match r with EmptyString => None | _ => option_map Z.opp (digits r 0) end
      else if Ascii.eqb c "+" then
        match r with EmptyString => None | _ => digits r 0 end
      else digits (String c r) 0
  end.

(** [s.format(arg)] with one positional argument.  ["{0}"] is replaced by
    [arg], ["{{"] and ["}}"] are the escaped braces; [None] stands for the
    exception Python raises on any other use of a brace (an unmatched brace,
    or a field other than [0] when one argument is given).  The automatic
    field ["{}"] is not modelled: [gen_format_string] builds its format from
    the literal ["{0}"] and from pieces that [struct.calcsize] accepted, and
    those hold no brace (lemma [fmt_pieces_format] below). *)
Fixpoint format (s : string) (arg : string) : option string :=
  match s with
  | EmptyString => Some EmptyString
  | String c s1 =>
      if Ascii.eqb c "{" then
        match s1 with
        | String c1 s2 =>
            if Ascii.eqb c1 "{" then option_map (String "{") (format s2 arg)
            else if Ascii.eqb c1 "0" then
              match s2 with
              | String c2 s3 =>
                  if Ascii.eqb c2 "}" then option_map (String.append arg) (format s3 arg)
                  else None
              | EmptyString => None
              end
            else None
        | EmptyString => None
        end
      else if Ascii.eqb c "}" then
        match s1 with
        | String c1 s2 =>
            if Ascii.eqb c1 "}" then option_map (String "}") (format s2 arg)
            else None
        | EmptyString => None
        end
      else option_map (String c) (format s1 arg)
  end.

End Py.

(** ** The [struct] module: format strings, [calcsize], [unpack], [pack] *)

Module Struct.

Inductive endian := Little | Big.

(** What a format character stands for (the rows of CPython's tables). *)
Inductive kind :=
| KPad                  (* x *)
| KChar                 (* c *)
| KString               (* s *)
| KPascal               (* p *)
| KBool                 (* ? *)
| KInt (signed : bool)  (* b B h H i I l L q Q *)
| KFloat                (* f d *)
| KPointer.             (* P, native table only *)

Record formatdef := mkdef { fkind : kind; fsize : nat; falign : nat }.

(** The C types whose size and alignment depend on the machine. *)
Record platform := {
  sys_byteorder : string;
  c_bool : nat * nat;
  c_short : nat * nat;
  c_int : nat * nat;
  c_long : nat * nat;
  c_long_long : nat * nat;
  c_float : nat * nat;
  c_double : nat * nat;
  c_pointer : nat * nat
}.

(** x86-64 Linux and macOS: LP64, every scalar aligned to its size. *)
Definition lp64 : platform := {|
  sys_byteorder := "little";
  c_bool := (1, 1)%nat;
  c_short := (2, 2)%nat;
  c_int := (4, 4)%nat;
  c_long := (8, 8)%nat;
  c_long_long := (8, 8)%nat;
  c_float := (4, 4)%nat;
  c_double := (8, 8)%nat;
  c_pointer := (8, 8)%nat
|}.

Definition table := ascii -> option formatdef.

(** The standard table, shared by ['<'], ['>'], ['!'] and ['=']: fixed sizes,
    no alignment. *)
Definition std_table : table := fun c =>
  if Ascii.eqb c "x" then Some (mkdef KPad 1 0)
  else if Ascii.eqb c "b" then Some (mkdef (KInt true) 1 0)
  else if Ascii.eqb c "B" then Some (mkdef (KInt false) 1 0)
  else if Ascii.eqb c "c" then Some (mkdef KChar 1 0)
  else if Ascii.eqb c "s" then Some (mkdef KString 1 0)
  else if Ascii.eqb c "p" then Some (mkdef KPascal 1 0)
  else if Ascii.eqb c "h" then Some (mkdef (KInt true) 2 0)
  else if Ascii.eqb c "H" then Some (mkdef (KInt false) 2 0)
  else if Ascii.eqb c "i" then Some (mkdef (KInt true) 4 0)
  else if Ascii.eqb c "I" then Some (mkdef (KInt false) 4 0)
  else if Ascii.eqb c "l" then Some (mkdef (KInt true) 4 0)
  else if Ascii.eqb c "L" then Some (mkdef (KInt false) 4 0)
  else if Ascii.eqb c "q" then Some (mkdef (KInt true) 8 0)
  else if Ascii.eqb c "Q" then Some (mkdef (KInt false) 8 0)
  else if Ascii.eqb c "?" then Some (mkdef KBool 1 0)
  else if Ascii.eqb c "f" then Some (mkdef KFloat 4 0)
  else if Ascii.eqb c "d" then Some (mkdef KFloat 8 0)
  else None.

Definition native_def (k : kind) (sa : nat * nat) : option formatdef :=
  Some (mkdef k (fst sa) (snd sa)).

(** The native table, used when the format has no prefix or the prefix ['@']:
    the machine's sizes, with alignment. *)
Definition native_table (p : platform) : table := fun c =>
  if Ascii.eqb c "x" then Some (mkdef KPad 1 0)
  else if Ascii.eqb c "b" then Some (mkdef (KInt true) 1 0)
  else if Ascii.eqb c "B" then Some (mkdef (KInt false) 1 0)
  else if Ascii.eqb c "c" then Some (mkdef KChar 1 0)
  else if Ascii.eqb c "s" then Some (mkdef KString 1 0)
  else if Ascii.eqb c "p" then Some (mkdef KPascal 1 0)
  else if Ascii.eqb c "h" then native_def (KInt true) (c_short p)
  else if Ascii.eqb c "H" then native_def (KInt false) (c_short p)
  else if Ascii.eqb c "i" then native_def (KInt true) (c_int p)
  else if Ascii.eqb c "I" then native_def (KInt false) (c_int p)
  else if Ascii.eqb c "l" then native_def (KInt true) (c_long p)
  else if Ascii.eqb c "L" then native_def (KInt false) (c_long p)
  else if Ascii.eqb c "q" then native_def (KInt true) (c_long_long p)
  else if Ascii.eqb c "Q" then native_def (KInt false) (c_long_long p)
  else if Ascii.eqb c "?" then native_def KBool (c_bool p)
  else if Ascii.eqb c "f" then native_def KFloat (c_float p)
  else if Ascii.eqb c "d" then native_def KFloat (c_double p)
  else if Ascii.eqb c "P" then native_def KPointer (c_pointer p)
  else None.

Definition host_endian (p : platform) : endian :=
  if String.eqb (sys_byteorder p) "little" then Little else Big.

(** [whichtable]: the first character selects table and byte order and is
    consumed; any other first character is left in place and means native. *)
Definition whichtable (p : platform) (fmt : string) : table * endian * string :=
  match fmt with
  | String c body =>
      if Ascii.eqb c "<" then (std_table, Little, body)
      else if Ascii.eqb c ">" then (std_table, Big, body)
      else if Ascii.eqb c "!" then (std_table, Big, body)
      else if Ascii.eqb c "=" then (std_table, host_endian p, body)
      else if Ascii.eqb c "@" then (native_table p, host_endian p, body)
      else (native_table p, host_endian p, fmt)
  | EmptyString => (native_table p, host_endian p, fmt)
  end.

(** One parsed unit of a format: a repeat count and the table row. *)
Definition item : Type := nat * formatdef.

(** The scan of the format body.  [num] is the repeat count being read
    ([None] between units).  Blanks are skipped between units only; digits
    must be followed by a format character; [None] is [struct.error]
    ("bad char in struct format", "repeat count given without format
    specifier").  A result [Some] is a format every version accepts.  A
    result [None] is a format some version refuses: CPython 2.7 drops a
    count left at the end of the format instead of refusing it, and later
    versions know format characters the tables here do not have. *)
Fixpoint parse (t : table) (s : string) (num : option nat) : option (list item) :=
  match s with
  | EmptyString =>
      match num with
      | None => Some []
      | Some _ => None
      end
  | String c s' =>
      match num with
      | None =>
          if Py.is_space c then parse t s' None
          else if Py.is_digit c then parse t s' (Some (Py.digit_val c))
          else match t c with
               | Some e => option_map (cons (1%nat, e)) (parse t s' None)
               | None => None
               end
      | Some n =>
          if Py.is_digit c then parse t s' (Some (10 * n + Py.digit_val c)%nat)
          else match t c with
               | Some e => option_map (cons (n, e)) (parse t s' None)
               | None => None
               end
      end
  end.

(** [align]: round the running size up to the row's alignment. *)
Definition align (size : Z) (e : formatdef) : Z :=
  match falign e with
  | O => size
  | a => ((size + Z.of_nat a - 1) / Z.of_nat a) * Z.of_nat a
  end.

Fixpoint items_size (its : list item) (size : Z) : Z :=
  match its with
  | [] => size
  | (n, e) :: r => items_size r (align size e + Z.of_nat n * Z.of_nat (fsize e))
  end.

(** [struct.calcsize(fmt)]; [None] is [struct.error]. *)
Definition calcsize (p : platform) (fmt : string) : option Z :=
  let '(t, _, body) := whichtable p fmt in
  option_map (fun its => items_size its 0) (parse t body None).

(** *** Values and the two directions of the codec *)

(** What [unpack] yields and [pack] takes: integers, byte strings, booleans
    and floats.  A float is carried as the unsigned value of its IEEE bit
    pattern, which leaves out what the C conversions between [float] and
    [double] do to a NaN (a signalling NaN read with [f] is written back
    quiet); no statement below is about what a float field holds. *)
Inductive value :=
| VInt (z : Z)
| VStr (s : list byte)
| VBool (b : bool)
| VFloat (bits : Z).

(** How [unpack] and [pack] fail.  The first three are [struct.error]; the
    last is the SystemError of the string constructor, which [unpack] calls
    with the size -1 on a Pascal field of no byte. *)
Inductive struct_error :=
| BadFormat      (* bad char in struct format, repeat count without specifier *)
| BadLength      (* unpack requires a string argument of length n *)
| BadArgument    (* wrong number or type of arguments, integer out of range *)
| NegativeSize.  (* SystemError: Negative size passed to PyString_FromStringAndSize *)

Definition get_uint (en : endian) (bs : list byte) : Z :=
  match en with
  | Little => le_combine bs
  | Big => le_combine (rev bs)
  end.

Definition put_uint (en : endian) (n : nat) (z : Z) : list byte :=
  match en with
  | Little => le_split n z
  | Big => rev (le_split n z)
  end.

Definition zeros (n : nat) : list byte := repeat Byte.x00 n.

(** One field of [fsize e] bytes. *)
Definition unpack_one (en : endian) (e : formatdef) (bs : list byte) : value :=
  match fkind e with
  | KInt true =>
      let u := get_uint en bs in
      let half := 2 ^ (8 * Z.of_nat (fsize e) - 1) in
      VInt (if u <? half then u else u - 2 * half)
  | KInt false | KPointer => VInt (get_uint en bs)
  | KBool => VBool (negb (le_combine bs =? 0))
  | KFloat => VFloat (get_uint en bs)
  | KChar | KString | KPascal | KPad => VStr bs
  end.

Definition truth (v : value) : bool :=
  match v with
  | VInt z => negb (z =? 0)
  | VStr s => negb (Nat.eqb (length s) 0)
  | VBool b => b
  | VFloat bits => negb (bits =? 0)
  end.

Definition pack_int (en : endian) (signed : bool) (n : nat) (z : Z)
  : option (list byte) :=
  let bits := 8 * Z.of_nat n in
  let ok := if signed then (- 2 ^ (bits - 1) <=? z) && (z <? 2 ^ (bits - 1))
            else (0 <=? z) && (z <? 2 ^ bits) in
  if ok then Some (put_uint en n z) else None.

Definition pack_one (en : endian) (e : formatdef) (v : value)
  : option (list byte) :=
  match fkind e, v with
  | KInt sg, VInt z => pack_int en sg (fsize e) z
  | KInt sg, VBool b => pack_int en sg (fsize e) (if b then 1 else 0)
  | KPointer, VInt z => pack_int en false (fsize e) z
  | KBool, _ => Some (le_split (fsize e) (if truth v then 1 else 0))
  | KFloat, VFloat bits => Some (put_uint en (fsize e) bits)
  | KChar, VStr [b] => Some [b]
  | _, _ => None
  end.

(** [n] consecutive chunks of [sz] bytes. *)
Fixpoint chunks (sz n : nat) (bs : list byte) : list (list byte) :=
  match n with
  | O => []
  | S n' => take sz bs :: chunks sz n' (drop sz bs)
  end.

(** The Pascal string of an [n]-byte field, [n] at least 1: a length byte,
    then the text, cut at the end of the field.  The field of no byte is
    not read here: [unpack] fails on it, see [empty_pascal]. *)
Definition unpack_pascal (n : nat) (field : list byte) : list byte :=
  match field with
  | [] => []
  | b :: text => take (Nat.min (Z.to_nat (byte.unsigned b)) (n - 1)) text
  end.

(** [n - 1] bytes of the string at most are copied after the length byte,
    the rest of the field is zero; the length byte is what was copied, 255
    at most. *)
Definition pack_pascal (n : nat) (s : list byte) : list byte :=
  match n with
  | O => []
  | S m =>
      let len := Nat.min (length s) m in
      byte.of_Z (Z.of_nat (Nat.min len 255)) :: take m (take len s ++ zeros m)
  end.

(** A Pascal field of no byte in the format (['0p']).  [unpack] takes the
    length byte of such a field to be at least the field's size, cuts it to
    [size - 1 = -1] and asks for a string of that size: SystemError, which
    is no [struct.error]. *)
Definition empty_pascal (its : list item) : bool :=
  existsb (fun it => match fkind (snd it) with
                     | KPascal => Nat.eqb (fst it) 0
                     | _ => false
                     end) its.

Definition padding (off : nat) (e : formatdef) : nat :=
  Z.to_nat (align (Z.of_nat off) e) - off.

(** The decoding loop of [unpack]: [data] is what is left of the buffer,
    [off] the offset reached. *)
Fixpoint unpack_items (en : endian) (its : list item) (data : list byte)
    (off : nat) : list value :=
  match its with
  | [] => []
  | (n, e) :: r =>
      let pad := padding off e in
      let len := (n * fsize e)%nat in
      let field := take len (drop pad data) in
      let vals :=
        match fkind e with
        | KPad => []
        | KString => [VStr field]
        | KPascal => [VStr (unpack_pascal n field)]
        | _ => map (unpack_one en e) (chunks (fsize e) n field)
        end in
      vals ++ unpack_items en r (drop len (drop pad data)) (off + pad + len)
  end.

(** [n] arguments packed with one row. *)
Fixpoint pack_rep (en : endian) (e : formatdef) (n : nat) (args : list value)
  : option (list byte * list value) :=
  match n with
  | O => Some ([], args)
  | S n' =>
      match args with
      | [] => None
      | v :: args' =>
          match pack_one en e v with
          | None => None
          | Some bs =>
              match pack_rep en e n' args' with
              | None => None
              | Some (out, rest) => Some (bs ++ out, rest)
              end
          end
      end
  end.

(** The encoding loop of [pack]; arguments left over at the end are an
    error, as are missing ones. *)
Fixpoint pack_items (en : endian) (its : list item) (args : list value)
    (off : nat) : option (list byte) :=
  match its with
  | [] => match args with [] => Some [] | _ => None end
  | (n, e) :: r =>
      let pad := padding off e in
      let len := (n * fsize e)%nat in
      let this :=
        match fkind e with
        | KPad => Some (zeros len, args)
        | KString =>
            match args with
            | VStr s :: args' => Some (take n (s ++ zeros n), args')
            | _ => None
            end
        | KPascal =>
            match args with
            | VStr s :: args' => Some (pack_pascal n s, args')
            | _ => None
            end
        | _ => pack_rep en e n args
        end in
      match this with
      | None => None
      | Some (bs, args') =>
          match pack_items en r args' (off + pad + len) with
          | None => None
          | Some out => Some (zeros pad ++ bs ++ out)
          end
      end
  end.

(** [struct.unpack(fmt, data)]: the format is compiled, the length of the
    buffer is checked, then the fields are read one after the other.  An
    exception raised at one field leaves nothing of the fields read before
    it, so the Pascal field of no byte is looked for before the loop. *)
Definition unpack (p : platform) (fmt : string) (data : list byte)
  : struct_error + list value :=
  let '(t, en, body) := whichtable p fmt in
  match parse t body None with
  | None => inl BadFormat
  | Some its =>
      if Z.of_nat (length data) =? items_size its 0
      then if empty_pascal its then inl NegativeSize
           else inr (unpack_items en its data 0)
      else inl BadLength
  end.

(** [struct.pack(fmt, *args)]. *)
Definition pack (p : platform) (fmt : string) (args : list value)
  : struct_error + list byte :=
  let '(t, en, body) := whichtable p fmt in
  match parse t body None with
  | None => inl BadFormat
  | Some its =>
      match pack_items en its args 0 with
      | None => inl BadArgument
      | Some out => inr out
      end
  end.

End Struct.

(** ** [gen_format_string] *)

Import Struct.

(** The exceptions the function can end in.  The first four are all
    [struct.error] in the source and differ by their message. *)
Inductive error :=
| MultipleWildcards                 (* 'Wildcard character may only be used once' *)
| DivisionError                     (* 'Given chunksize of ... does not divide evenly ...' *)
| SizeMismatch (expected got : Z)   (* 'Format string size and chunk size do not match.' *)
| UnknownPattern                    (* struct.error: the format string is refused *)
| IndexError                        (* [s[-1]] on an empty count, a list index out of range *)
| ValueError                        (* [int] on a count that is not a number, [str.format] *)
| ZeroDivisionError                 (* [remaining / chunksize] with a chunk of no bytes *)
| LayoutSizeMismatch                (* struct.error: the buffer is not as long as the format *)
| PackError                         (* struct.error: an argument [pack] refuses *)
| SystemError.                      (* [unpack] on a Pascal field of no byte *)

Inductive outcome (A : Type) :=
| Return (a : A)
| Raise (e : error).
Arguments Return {A} a.
Arguments Raise {A} e.

(** The local variables of the scanning loop. *)
Record scan_state := mkscan {
  fmt : string;
  cumsize : Z;
  special_pattern : option string;
  special_index : option nat
}.

Definition scan_init : scan_state := mkscan EmptyString 0 None None.

(** Python's truth value of [special_pattern]: [None] and [''] are false. *)
Definition truthy (sp : option string) : bool :=
  match sp with
  | None => false
  | Some EmptyString => false
  | Some _ => true
  end.

(** One turn of [for i, pattern_info in enumerate(formats)]. *)
Definition scan_token (p : platform) (st : scan_state) (i : nat) (tok : string)
  : outcome scan_state :=
  match Py.split ":" tok with
  | [] => Raise IndexError
  | [pattern] =>
      match calcsize p pattern with
      | None => Raise UnknownPattern
      | Some n =>
          Return (mkscan (fmt st +:+ pattern) (cumsize st + n)
                         (special_pattern st) (special_index st))
      end
  | pattern :: cnt :: _ =>
      match Py.last_char cnt with
      | None => Raise IndexError
      | Some c =>
          if Ascii.eqb c "*" then
            if truthy (special_pattern st) then Raise MultipleWildcards
            else Return (mkscan (fmt st +:+ "{0}") (cumsize st)
                                (Some pattern) (Some i))
          else
            match Py.int cnt with
            | None => Raise ValueError
            | Some count =>
                let result := Py.mul count pattern in
                match calcsize p result with
                | None => Raise UnknownPattern
                | Some n =>
                    Return (mkscan (fmt st +:+ result) (cumsize st + n)
                                   (special_pattern st) (special_index st))
                end
            end
      end
  end.

Fixpoint scan (p : platform) (toks : list string) (i : nat) (st : scan_state)
  : outcome scan_state :=
  match toks with
  | [] => Return st
  | tok :: rest =>
      match scan_token p st i tok with
      | Raise e => Raise e
      | Return st' => scan p rest (S i) st'
      end
  end.

(** The final sanity check and the return. *)
Definition final_check (p : platform) (fmt : string) (size : option Z)
  : outcome string :=
  match calcsize p ("=" +:+ fmt) with
  | None => Raise UnknownPattern
  | Some fmt_size =>
      match size with
      | Some sz =>
          if negb (sz =? 0) && negb (sz =? fmt_size)
          then Raise (SizeMismatch sz fmt_size)
          else Return fmt
      | None => Return fmt
      end
  end.

(** [gen_format_string(formats, size, expand)].

    [formats] is a mutable list that the function may update in place
    (line 148), so the embedding passes the list's contents as state: the
    first component of the result is what the caller's list object holds
    when the function returns or raises, the second is the returned format
    string or the exception.  The second element of the Python return value
    is that same list object. *)
Definition gen_format_string (p : platform) (formats : list string)
    (size : option Z) (expand : bool) : list string * outcome string :=
  if decide (formats = ["*"]) then (formats, Return "*")
  else
    match scan p formats 0 scan_init with
    | Raise e => (formats, Raise e)
    | Return st =>
        if truthy (special_pattern st) then
          match size with
          | None => (formats, Return (fmt st))
          | Some sz =>
              let pattern := default EmptyString (special_pattern st) in
              let remaining := sz - cumsize st in
              match calcsize p pattern with
              | None => (formats, Raise UnknownPattern)
              | Some chunksize =>
                  if chunksize =? 0 then (formats, Raise ZeroDivisionError)
                  else
                    let count := remaining / chunksize in
                    if negb (remaining mod chunksize =? 0)
                    then (formats, Raise DivisionError)
                    else
                      let result := Py.mul count pattern in
                      match Py.format (fmt st) result with
                      | None => (formats, Raise ValueError)
                      | Some fmt' =>
                          if expand then
                            let i := default O (special_index st) in
                            match formats !! i with
                            | None => (formats, Raise IndexError)
                            | Some tok =>
                                let formats' :=
                                  <[i := Py.replace "*" (Py.str count) tok]> formats in
                                (formats', final_check p fmt' size)
                            end
                          else (formats, final_check p fmt' size)
                      end
              end
          end
        else (formats, final_check p (fmt st) size)
    end.

(** The call seen from the caller: list objects live in a store, [formats]
    is a reference, and the returned pair holds that same reference. *)
Definition loc := nat.
Definition store := gmap loc (list string).

Definition call_gen_format_string (p : platform) (h : store) (formats : loc)
    (size : option Z) (expand : bool) : option (store * outcome (string * loc)) :=
  match h !! formats with
  | None => None
  | Some l =>
      let '(l', o) := gen_format_string p l size expand in
      Some (<[formats := l']> h,
            match o with
            | Return f => Return (f, formats)
            | Raise e => Raise e
            end)
  end.

(** ** [convert] *)

Definition of_struct_error (e : struct_error) : error :=
  match e with
  | BadFormat => UnknownPattern
  | BadLength => LayoutSizeMismatch
  | BadArgument => PackError
  | NegativeSize => SystemError
  end.

(** The two tagged formats of lines 211-216, [(fmt_in, fmt_out)]:
    ['>{0}'.format(fmt)] is [Py.format ">{0}" fmt]. *)
Definition tagged (tag : string) (fmt : string) : string :=
  default EmptyString (Py.format (tag +:+ "{0}") fmt).

Definition fmt_in_out (byte_order : string) (fmt : string) : string * string :=
  if String.eqb byte_order "little"
  then (tagged ">" fmt, tagged "<" fmt)
  else (tagged "<" fmt, tagged ">" fmt).

(** [convert(source, destination, byte_order, fmt)], with the two files
    taken out: [stream] is what [f.read()] yields on the source file (so
    [os.path.getsize(source)] is its length) and the result is what is
    written to the destination. *)
Definition convert (p : platform) (stream : list byte)
    (byte_order : option string) (fmt : string) : outcome (list byte) :=
  let fmt :=
    if String.eqb fmt "*"
    then Py.mul (Z.of_nat (length stream)) "c"
    else fmt in
  let byte_order := default (sys_byteorder p) byte_order in
  let '(fmt_in, fmt_out) := fmt_in_out byte_order fmt in
  match unpack p fmt_in stream with
  | inl e => Raise (of_struct_error e)
  | inr data =>
      match pack p fmt_out data with
      | inl e => Raise (of_struct_error e)
      | inr out => Return out
      end
  end.

(** The spec's [transcode(buffer, fmt, source_order, destination_order)]:
    [convert] has one order argument, the order to convert to, and takes the
    input to be in the other one. *)
Definition transcode (p : platform) (buffer : list byte) (fmt : string)
    (source_order destination_order : string) : outcome (list byte) :=
  convert p buffer (Some destination_order) fmt.

(** ** [main], from the descriptor to the converted file *)

(** The exceptions that are [struct.error]: [main] catches them around
    both calls and hands them to [parser.error]; the others leave [main]
    uncaught. *)
Definition is_struct_error (e : error) : bool :=
  match e with
  | MultipleWildcards | DivisionError | SizeMismatch _ _
  | UnknownPattern | LayoutSizeMismatch | PackError => true
  | IndexError | ValueError | ZeroDivisionError | SystemError => false
  end.

Inductive ending :=
| Converted (out : list byte)   (* what is written to the destination *)
| ParserError (e : error)       (* parser.error(e) *)
| Uncaught (e : error).         (* an exception no handler of main catches *)

Definition caught (e : error) : ending :=
  if is_struct_error e then ParserError e else Uncaught e.

(** Lines 343-347 and 358-370 of [main], for a source file that exists:
    [stream] is its contents, so the size given to [gen_format_string] is
    their length.  The first component is the list of tokens as the call
    leaves it. *)
Definition main_convert (p : platform) (formats : list string)
    (stream : list byte) (byte_order : option string) (expand : bool)
  : list string * ending :=
  let '(formats', o) :=
    gen_format_string p formats (Some (Z.of_nat (length stream))) expand in
  match o with
  | Raise e => (formats', caught e)
  | Return fmt =>
      match convert p stream byte_order fmt with
      | Raise e => (formats', caught e)
      | Return out => (formats', Converted out)
      end
  end.

(** Line 350: whether the descriptor is written to the configuration file.
    [formats] and [expanded_formats] are the two references [main] holds
    after line 345, [h] the lists they lead to; [!=] on lists compares
    their elements. *)
Definition main_stores (h : store) (args_store args_format_is_none : bool)
    (formats expanded_formats : loc) : bool :=
  args_store
  || (args_format_is_none
      && negb (bool_decide (h !! expanded_formats = h !! formats))).

(** * Notions used in the statements *)

(** Sum of the fields' widths, alignment left out. *)
Definition flat_len (its : list item) : nat :=
  foldr (fun it acc => (fst it * fsize (snd it) + acc)%nat) O its.

Definition unaligned (its : list item) : Prop :=
  Forall (fun it => falign (snd it) = O) its.

(** Rows whose fields [pack] gives back from what [unpack] read: the
    integers, [c] and [s] of the standard table. *)
Definition plain (e : formatdef) : bool :=
  Nat.eqb (falign e) 0 &&
  match fkind e with
  | KChar | KString => Nat.eqb (fsize e) 1
  | KInt _ => Nat.leb 1 (fsize e)
  | _ => false
  end.

(** Rows made of raw bytes only. *)
Definition opaque (e : formatdef) : bool :=
  Nat.eqb (falign e) 0 && Nat.eqb (fsize e) 1 &&
  match fkind e with
  | KChar | KString => true
  | _ => false
  end.

(** The byte-order flip of a buffer laid out as [its]: every integer field
    has its bytes reversed in place, every other field is kept. *)
Fixpoint flip_fields (its : list item) (data : list byte) : list byte :=
  match its with
  | [] => []
  | (n, e) :: r =>
      let len := (n * fsize e)%nat in
      let field := take len data in
      match fkind e with
      | KInt _ => mjoin (map (@rev byte) (chunks (fsize e) n field))
      | _ => field
      end ++ flip_fields r (drop len data)
  end.

Definition other (en : endian) : endian :=
  match en with Little => Big | Big => Little end.

(** What one plain field becomes. *)
Definition flip_one (e : formatdef) (bs : list byte) : list byte :=
  match fkind e with
  | KInt _ => rev bs
  | _ => bs
  end.

Definition all_plain (its : list item) : Prop :=
  Forall (fun it => plain (snd it) = true) its.

Definition all_opaque (its : list item) : Prop :=
  Forall (fun it => opaque (snd it) = true) its.

(** For every byte of a buffer laid out as [its], whether it lies in a raw
    field, [c] or [s]. *)
Fixpoint opaque_bytes (its : list item) : list bool :=
  match its with
  | [] => []
  | (n, e) :: r => replicate (n * fsize e) (opaque e) ++ opaque_bytes r
  end.

(** A token as the loop reads it: its pattern and its count, [None] for the
    wildcard; a missing count is 1. *)
Definition classify (tok : string) : outcome (string * option Z) :=
  match Py.split ":" tok with
  | [] => Raise IndexError
  | [pattern] => Return (pattern, Some 1)
  | pattern :: cnt :: _ =>
      match Py.last_char cnt with
      | None => Raise IndexError
      | Some c =>
          if Ascii.eqb c "*" then Return (pattern, None)
          else match Py.int cnt with
               | None => Raise ValueError
               | Some count => Return (pattern, Some count)
               end
      end
  end.

Definition is_wildcard (tok : string) : bool :=
  match classify tok with
  | Return (_, None) => true
  | _ => false
  end.

(** What a token with a count adds to the format: the repeated pattern and
    the size [struct.calcsize] gives it (without prefix, so the native one). *)
Definition fixed_part (p : platform) (tok : string) : option (string * Z) :=
  match classify tok with
  | Return (pattern, Some count) =>
      option_map (pair (Py.mul count pattern)) (calcsize p (Py.mul count pattern))
  | _ => None
  end.

Definition fixed_parts (p : platform) (toks : list string)
    (parts : list (string * Z)) : Prop :=
  Forall2 (fun tok part => fixed_part p tok = Some part) toks parts.

Definition parts_text (parts : list (string * Z)) : string :=
  foldr (fun x acc => fst x +:+ acc) EmptyString parts.

Definition parts_size (parts : list (string * Z)) : Z :=
  foldr (fun x acc => snd x + acc) 0 parts.

Definition is_brace (c : ascii) : bool := Ascii.eqb c "{" || Ascii.eqb c "}".

Fixpoint brace_free (s : string) : bool :=
  match s with
  | EmptyString => true
  | String c s' => negb (is_brace c) && brace_free s'
  end.

(** A token the loop gets through: a wildcard with a pattern, or a pattern
    with a count whose repetition [struct.calcsize] accepts. *)
Definition well_formed (p : platform) (tok : string) : bool :=
  match classify tok with
  | Return (pattern, None) => negb (String.eqb pattern EmptyString)
  | Return (pattern, Some count) =>
      match calcsize p (Py.mul count pattern) with
      | Some _ => true
      | None => false
      end
  | Raise _ => false
  end.

Fixpoint wildcards (toks : list string) : nat :=
  match toks with
  | [] => O
  | tok :: rest => ((if is_wildcard tok then 1 else 0) + wildcards rest)%nat
  end.

Definition seen (st : scan_state) : nat :=
  if truthy (special_pattern st) then 1%nat else 0%nat.

(** Parts that take as many bytes in the standard sizes as
    [struct.calcsize] gave them without prefix: no padding, and no width
    that is the machine's own. *)
Definition same_in_std (p : platform) (parts : list (string * Z)) : Prop :=
  Forall (fun part => calcsize p ("=" +:+ fst part) = Some (snd part)) parts.

(** A token of a descriptor without wildcard, with its pattern, its count
    and the width of its pattern in the standard sizes. *)
Definition valid_fixed (p : platform) (tok : string) (x : string * Z * Z) : Prop :=
  classify tok = Return (fst (fst x), Some (snd (fst x)))
  /\ 0 <= snd (fst x)
  /\ calcsize p ("=" +:+ fst (fst x)) = Some (snd x).

(** The sum over the tokens of count * width(pattern). *)
Definition total_width (xs : list (string * Z * Z)) : Z :=
  foldr (fun x acc => snd (fst x) * snd x + acc) 0 xs.

Fixpoint has_char (c : ascii) (s : string) : bool :=
  match s with
  | EmptyString => false
  | String a s' => Ascii.eqb a c || has_char c s'
  end.

(** The pairing of the two tags in the words of claim C2, keyed on the
    order of the input. *)
Definition claimed_fmt_in_out (source_order fmt : string) : string * string :=
  if String.eqb source_order "little"
  then (String ">" fmt, String "<" fmt)
  else (String "<" fmt, String ">" fmt).

(** ** Notions of the further properties *)

(** The tokens' patterns, each repeated as its count says, one after the
    other. *)
Definition flat_text (xs : list (string * Z * Z)) : string :=
  foldr (fun x acc => Py.mul (snd (fst x)) (fst (fst x)) +:+ acc) EmptyString xs.

(** No NUL character in the string: a format is read by CPython 2.7 up to
    its first NUL only, so that what follows one is not looked at by
    [struct] and reaches [str.format] as it is. *)
Definition no_nul (s : string) : Prop := has_char "000" s = false.

(** A format [str.format] goes through, whatever the argument. *)
Definition formattable (s : string) : Prop :=
  forall arg, is_Some (Py.format s arg).

(** What the loop knows of the wildcard it has met: the index it keeps is
    the index of a wildcard token of the list. *)
Definition index_ok (toks : list string) (st : scan_state) : Prop :=
  match special_index st with
  | None => special_pattern st = None
  | Some j => exists tok, toks !! j = Some tok /\ is_wildcard tok = true
  end.

(** A token with a readable count: no empty count after the colon, and a
    count that is a number or ends in the wildcard character. *)
Definition readable (tok : string) : Prop :=
  exists x, classify tok = Return x.

(** The strings [str] gives for a number are digits after the sign; digits
    hold no blank and none of the two characters of a token. *)
Fixpoint all_digits (s : string) : bool :=
  match s with
  | EmptyString => true
  | String c s' => Py.is_digit c && all_digits s'
  end.

(** No character [strip] takes off. *)
Fixpoint no_space (s : string) : bool :=
  match s with
  | EmptyString => true
  | String c s' => negb (Py.is_space c) && no_space s'
  end.

(** The characters that select byte order, size and alignment when they
    stand first in a format. *)
Definition is_prefix (c : ascii) : bool :=
  Ascii.eqb c "<" || Ascii.eqb c ">" || Ascii.eqb c "!"
  || Ascii.eqb c "=" || Ascii.eqb c "@".

(** None of them anywhere in the string. *)
Fixpoint prefix_free (s : string) : bool :=
  match s with
  | EmptyString => true
  | String c s' => negb (is_prefix c) && prefix_free s'
  end.

(** Rows of the standard table other than the floats: what [unpack] reads
    in such a field, [pack] takes back. *)
Definition exact_row (e : formatdef) : bool :=
  Nat.eqb (falign e) 0 &&
  match fkind e with
  | KFloat | KPointer => false
  | KInt _ => Nat.leb 1 (fsize e)
  | _ => Nat.eqb (fsize e) 1
  end.

(** A format of such rows only, without a Pascal field of no byte. *)
Definition all_exact (its : list item) : Prop :=
  Forall (fun it => exact_row (snd it) = true) its /\ empty_pascal its = false.

(** * Properties *)

(** ** Strings *)

Lemma append_cons (c : ascii) (s t : string) :
  String c s +:+ t = String c (s +:+ t).
Proof. reflexivity. Qed.

Lemma append_nil_l (s : string) : EmptyString +:+ s = s.
Proof. reflexivity. Qed.

Lemma append_nil_r (s : string) : s +:+ EmptyString = s.
Proof.
  induction s as [|c s IH]; [reflexivity|].
  now rewrite append_cons, IH.
Qed.

Lemma append_assoc (a b c : string) : (a +:+ b) +:+ c = a +:+ (b +:+ c).
Proof.
  induction a as [|x a IH]; [reflexivity|].
  now rewrite !append_cons, IH.
Qed.

Lemma rep_1 (s : string) : Py.rep 1 s = s.
Proof. cbn [Py.rep]. apply append_nil_r. Qed.

Lemma tagged_cons (c : ascii) (fmt : string) :
  Ascii.eqb c "{" = false -> Ascii.eqb c "}" = false ->
  tagged (String c EmptyString) fmt = String c fmt.
Proof.
  intros H1 H2. unfold tagged. rewrite append_cons, append_nil_l.
  cbn [Py.format]. rewrite H1, H2.
  change (Py.format "{0}" fmt) with (Some (fmt +:+ EmptyString)).
  cbn [option_map default]. now rewrite append_nil_r.
Qed.

(** ** The format scanner *)

Section Parse.
Variable t : table.

Lemma parse_app (a b : string) : forall num ia,
  parse t a num = Some ia ->
  parse t (a +:+ b) num = option_map (app ia) (parse t b None).
Proof.
  induction a as [|c a IH]; intros num ia H;
    [rewrite append_nil_l | rewrite append_cons]; simpl in *.
  - destruct num; [discriminate|]. inversion H; subst.
    now destruct (parse t b None).
  - destruct num as [n|].
    + destruct (Py.is_digit c); [now apply IH|].
      destruct (t c) as [e|]; [|discriminate].
      destruct (parse t a None) as [ia'|] eqn:Ha; [|discriminate].
      inversion H; subst. rewrite (IH None ia' Ha).
      now destruct (parse t b None).
    + destruct (Py.is_space c); [now apply IH|].
      destruct (Py.is_digit c); [now apply IH|].
      destruct (t c) as [e|]; [|discriminate].
      destruct (parse t a None) as [ia'|] eqn:Ha; [|discriminate].
      inversion H; subst. rewrite (IH None ia' Ha).
      now destruct (parse t b None).
Qed.

Lemma parse_rep (s : string) (its : list item) (n : nat) :
  parse t s None = Some its ->
  parse t (Py.rep n s) None = Some (mjoin (replicate n its)).
Proof.
  intros H. induction n as [|n IH]; [reflexivity|].
  cbn [Py.rep]. rewrite (parse_app _ _ _ _ H), IH. reflexivity.
Qed.

End Parse.

Lemma items_size_unaligned (its : list item) : forall acc,
  unaligned its -> items_size its acc = acc + Z.of_nat (flat_len its).
Proof.
  induction its as [|[n e] r IH]; intros acc H; simpl.
  - lia.
  - inversion H as [|? ? He Hr]; subst. simpl in He.
    rewrite IH by assumption. unfold align. rewrite He. lia.
Qed.

Lemma std_table_unaligned (c : ascii) (e : formatdef) :
  std_table c = Some e -> falign e = O.
Proof.
  unfold std_table.
  repeat (match goal with
          | |- (if ?b then _ else _) = _ -> _ => destruct b
          end; [intros H; now inversion H|]).
  discriminate.
Qed.

Lemma parse_std_unaligned (s : string) : forall num its,
  parse std_table s num = Some its -> unaligned its.
Proof.
  induction s as [|c s IH]; intros num its H; simpl in H.
  - destruct num; [discriminate|]. inversion H. constructor.
  - destruct num as [n|].
    + destruct (Py.is_digit c); [exact (IH _ _ H)|].
      destruct (std_table c) as [e|] eqn:He; [|discriminate].
      destruct (parse std_table s None) as [r|] eqn:Hr; [|discriminate].
      inversion H; subst. constructor; [exact (std_table_unaligned _ _ He)|].
      exact (IH _ _ Hr).
    + destruct (Py.is_space c); [exact (IH _ _ H)|].
      destruct (Py.is_digit c); [exact (IH _ _ H)|].
      destruct (std_table c) as [e|] eqn:He; [|discriminate].
      destruct (parse std_table s None) as [r|] eqn:Hr; [|discriminate].
      inversion H; subst. constructor; [exact (std_table_unaligned _ _ He)|].
      exact (IH _ _ Hr).
Qed.

Lemma flat_len_app (a b : list item) :
  flat_len (a ++ b) = (flat_len a + flat_len b)%nat.
Proof. induction a as [|x a IH]; simpl; [reflexivity | rewrite IH; lia]. Qed.

Lemma std_in_native (p : platform) (c : ascii) (e : formatdef) :
  std_table c = Some e -> is_Some (native_table p c).
Proof.
  unfold std_table, native_table, native_def.
  repeat (match goal with
          | |- (if ?b then _ else _) = _ -> _ => destruct b
          end; [intros _; eexists; reflexivity|]).
  discriminate.
Qed.

Lemma parse_std_native (p : platform) (s : string) : forall num its,
  parse std_table s num = Some its ->
  is_Some (parse (native_table p) s num).
Proof.
  induction s as [|c s IH]; intros num its H; simpl in *.
  - destruct num; [discriminate|]. eexists; reflexivity.
  - destruct num as [n|].
    + destruct (Py.is_digit c); [exact (IH _ _ H)|].
      destruct (std_table c) as [e|] eqn:He; [|discriminate].
      destruct (parse std_table s None) as [r|] eqn:Hr; [|discriminate].
      destruct (std_in_native p _ _ He) as [e' ->].
      destruct (IH None r Hr) as [r' ->]. eexists; reflexivity.
    + destruct (Py.is_space c); [exact (IH _ _ H)|].
      destruct (Py.is_digit c); [exact (IH _ _ H)|].
      destruct (std_table c) as [e|] eqn:He; [|discriminate].
      destruct (parse std_table s None) as [r|] eqn:Hr; [|discriminate].
      destruct (std_in_native p _ _ He) as [e' ->].
      destruct (IH None r Hr) as [r' ->]. eexists; reflexivity.
Qed.

(** ** The codec on integer, char and string fields *)

Lemma put_get_other (en : endian) (bs : list byte) :
  put_uint (other en) (length bs) (get_uint en bs) = rev bs.
Proof.
  destruct en; simpl.
  - now rewrite split_le_combine.
  - rewrite <- (length_rev bs). apply split_le_combine.
Qed.

Lemma get_uint_bound (en : endian) (bs : list byte) :
  0 <= get_uint en bs < 2 ^ (8 * Z.of_nat (length bs)).
Proof.
  destruct en; simpl.
  - apply le_combine_bound.
  - rewrite <- (length_rev bs). apply le_combine_bound.
Qed.

Lemma put_uint_mod (en : endian) (n : nat) (z : Z) :
  put_uint en n (z mod 2 ^ (Z.of_nat n * 8)) = put_uint en n z.
Proof. destruct en; simpl; now rewrite <- le_split_mod. Qed.

Lemma put_uint_wrap (en : endian) (n : nat) (z : Z) :
  put_uint en n (z - 2 ^ (Z.of_nat n * 8)) = put_uint en n z.
Proof.
  rewrite <- (put_uint_mod en n (z - _)), <- (put_uint_mod en n z).
  f_equal.
  rewrite <- (Z.mul_1_l (2 ^ _)) at 1.
  rewrite <- Zminus_mod_idemp_r, Z_mod_mult, Z.sub_0_r. reflexivity.
Qed.

Lemma pack_unpack_int (en : endian) (e : formatdef) (sg : bool) (bs : list byte) :
  fkind e = KInt sg -> (1 <= fsize e)%nat -> length bs = fsize e ->
  pack_one (other en) e (unpack_one en e bs) = Some (rev bs).
Proof.
  intros Hk Hsz Hlen. unfold unpack_one, pack_one. rewrite Hk.
  pose proof (get_uint_bound en bs) as Hb. rewrite Hlen in Hb.
  set (n := fsize e) in *. set (u := get_uint en bs) in *.
  assert (Hpow : 2 ^ (8 * Z.of_nat n) = 2 * 2 ^ (8 * Z.of_nat n - 1)).
  { rewrite <- Z.pow_succ_r by lia. f_equal. lia. }
  assert (Hput : put_uint (other en) n u = rev bs).
  { subst u n. rewrite <- Hlen. apply put_get_other. }
  destruct sg; unfold pack_int.
  - set (half := 2 ^ (8 * Z.of_nat n - 1)) in *.
    destruct (Z.ltb_spec u half) as [Hlt|Hge].
    + replace ((- half <=? u) && (u <? half))%bool with true
        by (symmetry; apply andb_true_iff; split; [apply Z.leb_le|apply Z.ltb_lt]; lia).
      now rewrite Hput.
    + replace ((- half <=? u - 2 * half) && (u - 2 * half <? half))%bool with true
        by (symmetry; apply andb_true_iff; split; [apply Z.leb_le|apply Z.ltb_lt]; lia).
      rewrite <- Hput. f_equal. rewrite <- Hpow.
      replace (8 * Z.of_nat n) with (Z.of_nat n * 8) by lia.
      apply put_uint_wrap.
  - replace ((0 <=? u) && (u <? 2 ^ (8 * Z.of_nat n)))%bool with true
      by (symmetry; apply andb_true_iff; split; [apply Z.leb_le|apply Z.ltb_lt]; lia).
    now rewrite Hput.
Qed.

Lemma pack_unpack_char (en en' : endian) (e : formatdef) (b : byte) :
  fkind e = KChar -> pack_one en' e (unpack_one en e [b]) = Some [b].
Proof. intros Hk. unfold unpack_one, pack_one. now rewrite Hk. Qed.

Lemma pack_unpack_plain (en : endian) (e : formatdef) (bs : list byte) :
  plain e = true -> fkind e <> KString -> length bs = fsize e ->
  pack_one (other en) e (unpack_one en e bs) = Some (flip_one e bs).
Proof.
  unfold plain, flip_one. intros Hp Hs Hlen.
  apply andb_true_iff in Hp as [_ Hp].
  destruct (fkind e) eqn:Hk; try discriminate; try congruence.
  - apply Nat.eqb_eq in Hp. rewrite Hp in Hlen.
    destruct bs as [|b [|? ?]]; try discriminate.
    now apply pack_unpack_char.
  - apply Nat.leb_le in Hp. now apply pack_unpack_int with (sg := signed).
Qed.

Lemma pack_rep_chunks (en : endian) (e : formatdef) (rest : list value) :
  plain e = true -> fkind e <> KString ->
  forall (n : nat) (field : list byte),
    length field = (n * fsize e)%nat ->
    pack_rep (other en) e n
      (map (unpack_one en e) (chunks (fsize e) n field) ++ rest)
    = Some (mjoin (map (flip_one e) (chunks (fsize e) n field)), rest).
Proof.
  intros Hp Hs. induction n as [|n IH]; intros field Hlen; simpl.
  - reflexivity.
  - rewrite pack_unpack_plain; try assumption.
    + rewrite IH; [reflexivity|]. rewrite length_drop. lia.
    + rewrite length_take. lia.
Qed.

Lemma chunks_one_join (n : nat) : forall field : list byte,
  length field = n -> mjoin (chunks 1 n field) = field.
Proof.
  induction n as [|n IH]; intros field Hlen; simpl.
  - now destruct field.
  - destruct field as [|b field]; [discriminate|]. simpl.
    rewrite drop_0. f_equal. apply IH. now inversion Hlen.
Qed.

Lemma padding_unaligned (off : nat) (e : formatdef) :
  falign e = O -> padding off e = O.
Proof. intros H. unfold padding, align. rewrite H. lia. Qed.

(** Unpacking under one byte order and packing under the other flips each
    integer field and copies the others. *)
Lemma pack_unpack_items (en : endian) (its : list item) :
  Forall (fun it => plain (snd it) = true) its ->
  forall (data : list byte) (off : nat),
    length data = flat_len its ->
    pack_items (other en) its (unpack_items en its data off) off
    = Some (flip_fields its data).
Proof.
  induction its as [|[n e] r IH]; intros Hall data off Hlen; simpl in *.
  - reflexivity.
  - inversion Hall as [|? ? Hp Hr]; subst. simpl in Hp.
    assert (Ha : falign e = O).
    { unfold plain in Hp. apply andb_true_iff in Hp as [Hp _].
      now apply Nat.eqb_eq in Hp. }
    rewrite (padding_unaligned off e Ha), drop_0, Nat.add_0_r. simpl.
    set (len := (n * fsize e)%nat) in *.
    assert (Hrest : length (drop len data) = flat_len r)
      by (rewrite length_drop; lia).
    assert (Hfield : length (take len data) = len)
      by (rewrite length_take; lia).
    destruct (fkind e) eqn:Hk;
      try (exfalso; unfold plain in Hp; rewrite Hk in Hp;
           apply andb_true_iff in Hp as [_ Hp]; discriminate).
    + (* c *)
      assert (Hs : fsize e = 1%nat).
      { unfold plain in Hp. rewrite Hk in Hp.
        apply andb_true_iff in Hp as [_ Hp]. now apply Nat.eqb_eq in Hp. }
      rewrite pack_rep_chunks by (try assumption; congruence).
      rewrite (IH Hr _ _ Hrest). f_equal. f_equal.
      unfold flip_one. rewrite Hk, map_id, Hs.
      apply chunks_one_join. rewrite Hfield. subst len. rewrite Hs. lia.
    + (* s *)
      simpl. rewrite (IH Hr _ _ Hrest). f_equal. f_equal.
      assert (fsize e = 1%nat) as Hs.
      { unfold plain in Hp. rewrite Hk in Hp.
        apply andb_true_iff in Hp as [_ Hp]. now apply Nat.eqb_eq in Hp. }
      rewrite take_app_le by lia. apply take_ge. lia.
    + (* integers *)
      rewrite pack_rep_chunks by (try assumption; congruence).
      rewrite (IH Hr _ _ Hrest). f_equal. f_equal.
      unfold flip_one. now rewrite Hk.
Qed.

Lemma flip_fields_opaque (its : list item) :
  Forall (fun it => opaque (snd it) = true) its ->
  forall data : list byte,
    length data = flat_len its -> flip_fields its data = data.
Proof.
  induction its as [|[n e] r IH]; intros Hall data Hlen; simpl in *.
  - now destruct data.
  - inversion Hall as [|? ? Hp Hr]; subst. simpl in Hp.
    rewrite IH; [|assumption|rewrite length_drop; lia].
    unfold opaque in Hp. apply andb_true_iff in Hp as [_ Hp].
    destruct (fkind e); try discriminate; apply take_drop.
Qed.

Lemma opaque_plain (e : formatdef) : opaque e = true -> plain e = true.
Proof.
  unfold opaque, plain. intros H.
  apply andb_true_iff in H as [H Hk]. apply andb_true_iff in H as [Ha Hs].
  rewrite Ha. simpl. destruct (fkind e); try discriminate; assumption.
Qed.

Lemma length_flip_fields (its : list item) : forall data : list byte,
  length data = flat_len its -> length (flip_fields its data) = length data.
Proof.
  induction its as [|[n e] r IH]; intros data Hlen; simpl in *.
  - lia.
  - rewrite length_app, IH by (rewrite length_drop; lia).
    rewrite length_drop.
    assert (Hchunks : forall sz k (f : list byte), length f = (k * sz)%nat ->
              length (mjoin (map (@rev byte) (chunks sz k f))) = length f).
    { intros sz k. induction k as [|k IHk]; intros f Hf; simpl.
      - lia.
      - rewrite length_app, length_rev, IHk by (rewrite length_drop; lia).
        rewrite length_take, length_drop. lia. }
    destruct (fkind e); rewrite ?Hchunks; rewrite ?length_take; lia.
Qed.

Lemma chunks_join (sz n : nat) : forall f : list byte,
  length f = (n * sz)%nat -> mjoin (chunks sz n f) = f.
Proof.
  induction n as [|n IH]; intros f Hf; simpl.
  - now destruct f.
  - rewrite IH by (rewrite length_drop; lia). apply take_drop.
Qed.

Lemma chunks_of_join (sz : nat) (l : list (list byte)) :
  Forall (fun c => length c = sz) l -> chunks sz (length l) (mjoin l) = l.
Proof.
  induction l as [|c l IH]; intros H; simpl.
  - reflexivity.
  - inversion H as [|? ? Hc Hl]; subst.
    rewrite take_app_length, drop_app_length. f_equal. now apply IH.
Qed.

Lemma chunks_length (sz n : nat) : forall f : list byte,
  length f = (n * sz)%nat ->
  length (chunks sz n f) = n /\ Forall (fun c => length c = sz) (chunks sz n f).
Proof.
  induction n as [|n IH]; intros f Hf; simpl.
  - split; [reflexivity|constructor].
  - destruct (IH (drop sz f)) as [Hn Hall]; [rewrite length_drop; lia|].
    split; [now rewrite Hn|].
    constructor; [rewrite length_take; lia|assumption].
Qed.

Lemma map_rev_rev (l : list (list byte)) :
  map (@rev byte) (map (@rev byte) l) = l.
Proof.
  induction l as [|c l IH]; simpl; [reflexivity|].
  now rewrite rev_involutive, IH.
Qed.

Lemma flip_chunks_involutive (sz n : nat) (f : list byte) :
  length f = (n * sz)%nat ->
  mjoin (map (@rev byte) (chunks sz n (mjoin (map (@rev byte) (chunks sz n f))))) = f.
Proof.
  intros Hf. destruct (chunks_length sz n f Hf) as [Hn Hall].
  set (l := map (@rev byte) (chunks sz n f)).
  assert (Hl : Forall (fun c => length c = sz) l).
  { subst l. apply Forall_map. eapply Forall_impl; [exact Hall|].
    intros c Hc. simpl. now rewrite length_rev. }
  assert (n = length l) as Hnl by (subst l; now rewrite length_map).
  rewrite Hnl at 1. rewrite (chunks_of_join sz l Hl). subst l.
  rewrite map_rev_rev. now apply chunks_join.
Qed.

Lemma length_flip_chunks (sz n : nat) : forall f : list byte,
  length f = (n * sz)%nat ->
  length (mjoin (map (@rev byte) (chunks sz n f))) = length f.
Proof.
  induction n as [|n IH]; intros f Hf; simpl.
  - lia.
  - rewrite length_app, length_rev, IH by (rewrite length_drop; lia).
    rewrite length_take, length_drop. lia.
Qed.

(** Flipping twice gives the buffer back. *)
Lemma flip_fields_involutive (its : list item) : forall data : list byte,
  length data = flat_len its -> flip_fields its (flip_fields its data) = data.
Proof.
  induction its as [|[n e] r IH]; intros data Hlen; simpl in *.
  - now destruct data.
  - set (len := (n * fsize e)%nat) in *.
    assert (Hfield : len = length (take len data)) by (rewrite length_take; lia).
    assert (Hrest : length (drop len data) = flat_len r) by (rewrite length_drop; lia).
    assert (Hflip : len = length (mjoin (map (@rev byte) (chunks (fsize e) n (take len data))))).
    { rewrite length_flip_chunks; [exact Hfield|]. now rewrite <- Hfield. }
    destruct (fkind e);
      rewrite take_app_length', drop_app_length' by assumption;
      rewrite (IH _ Hrest);
      rewrite ?flip_chunks_involutive by (now rewrite <- Hfield);
      apply take_drop.
Qed.

(** ** [convert] on integer, char and string formats *)

Lemma unpack_tag_big (p : platform) (fmt : string) (data : list byte) :
  unpack p (String ">" fmt) data =
  match parse std_table fmt None with
  | None => inl BadFormat
  | Some its =>
      if Z.of_nat (length data) =? items_size its 0
      then if empty_pascal its then inl NegativeSize
           else inr (unpack_items Big its data 0)
      else inl BadLength
  end.
Proof. reflexivity. Qed.

Lemma unpack_tag_little (p : platform) (fmt : string) (data : list byte) :
  unpack p (String "<" fmt) data =
  match parse std_table fmt None with
  | None => inl BadFormat
  | Some its =>
      if Z.of_nat (length data) =? items_size its 0
      then if empty_pascal its then inl NegativeSize
           else inr (unpack_items Little its data 0)
      else inl BadLength
  end.
Proof. reflexivity. Qed.

Lemma pack_tag_big (p : platform) (fmt : string) (args : list value) :
  pack p (String ">" fmt) args =
  match parse std_table fmt None with
  | None => inl BadFormat
  | Some its =>
      match pack_items Big its args 0 with
      | None => inl BadArgument
      | Some out => inr out
      end
  end.
Proof. reflexivity. Qed.

Lemma pack_tag_little (p : platform) (fmt : string) (args : list value) :
  pack p (String "<" fmt) args =
  match parse std_table fmt None with
  | None => inl BadFormat
  | Some its =>
      match pack_items Little its args 0 with
      | None => inl BadArgument
      | Some out => inr out
      end
  end.
Proof. reflexivity. Qed.

Lemma fmt_in_out_eq (byte_order fmt : string) :
  fmt_in_out byte_order fmt =
  if String.eqb byte_order "little"
  then (String ">" fmt, String "<" fmt)
  else (String "<" fmt, String ">" fmt).
Proof.
  unfold fmt_in_out. now rewrite !tagged_cons by reflexivity.
Qed.

Lemma all_plain_unaligned (its : list item) : all_plain its -> unaligned its.
Proof.
  intros Hall. eapply Forall_impl; [exact Hall|].
  intros [n e] H. simpl in *. unfold plain in H.
  apply andb_true_iff in H as [H _]. now apply Nat.eqb_eq in H.
Qed.

Lemma all_plain_no_empty_pascal (its : list item) :
  all_plain its -> empty_pascal its = false.
Proof.
  induction 1 as [|[n e] its H _ IH]; [reflexivity|].
  simpl in *. rewrite IH. unfold plain in H.
  destruct (fkind e); try reflexivity.
  rewrite andb_false_r in H. discriminate.
Qed.

(** The worker of [convert] once the format is fixed. *)
Lemma convert_body_plain (p : platform) (stream : list byte)
    (byte_order fmt : string) (its : list item) :
  parse std_table fmt None = Some its ->
  all_plain its ->
  Z.of_nat (length stream) = items_size its 0 ->
  (let '(fmt_in, fmt_out) := fmt_in_out byte_order fmt in
   match unpack p fmt_in stream with
   | inl e => Raise (of_struct_error e)
   | inr data =>
       match pack p fmt_out data with
       | inl e => Raise (of_struct_error e)
       | inr out => Return out
       end
   end) = Return (flip_fields its stream).
Proof.
  intros Hparse Hplain Hlen.
  assert (Hflat : length stream = flat_len its).
  { rewrite items_size_unaligned in Hlen by now apply all_plain_unaligned. lia. }
  rewrite fmt_in_out_eq. destruct (String.eqb byte_order "little").
  - rewrite unpack_tag_big, Hparse, Hlen, Z.eqb_refl.
    rewrite (all_plain_no_empty_pascal its Hplain), pack_tag_little, Hparse.
    pose proof (pack_unpack_items Big its Hplain stream 0%nat Hflat) as Hx.
    change (other Big) with Little in Hx. now rewrite Hx.
  - rewrite unpack_tag_little, Hparse, Hlen, Z.eqb_refl.
    rewrite (all_plain_no_empty_pascal its Hplain), pack_tag_big, Hparse.
    pose proof (pack_unpack_items Little its Hplain stream 0%nat Hflat) as Hx.
    change (other Little) with Big in Hx. now rewrite Hx.
Qed.

Lemma parse_star (t : table) : t "*"%char = None -> parse t "*" None = None.
Proof. intros H. simpl. now rewrite H. Qed.

Lemma convert_plain (p : platform) (stream : list byte)
    (byte_order : option string) (fmt : string) (its : list item) :
  parse std_table fmt None = Some its ->
  all_plain its ->
  Z.of_nat (length stream) = items_size its 0 ->
  convert p stream byte_order fmt = Return (flip_fields its stream).
Proof.
  intros Hparse Hplain Hlen. unfold convert.
  destruct (String.eqb_spec fmt "*") as [->|_].
  - rewrite parse_star in Hparse by reflexivity. discriminate.
  - now apply convert_body_plain.
Qed.

Lemma parse_char_run (n : nat) :
  parse std_table (Py.rep n "c") None
  = Some (mjoin (replicate n [(1%nat, mkdef KChar 1 0)])).
Proof. now apply parse_rep. Qed.

Lemma char_run_opaque (n : nat) :
  all_opaque (mjoin (replicate n [(1%nat, mkdef KChar 1 0)])).
Proof.
  induction n as [|n IH]; simpl; [constructor|].
  constructor; [reflexivity|exact IH].
Qed.

Lemma char_run_len (n : nat) :
  flat_len (mjoin (replicate n [(1%nat, mkdef KChar 1 0)])) = n.
Proof. induction n as [|n IH]; simpl; [reflexivity|]. now rewrite IH. Qed.

Lemma all_opaque_plain (its : list item) : all_opaque its -> all_plain its.
Proof.
  intros Hall. eapply Forall_impl; [exact Hall|].
  intros [n e]. apply opaque_plain.
Qed.

Lemma convert_fallback (p : platform) (stream : list byte)
    (byte_order : option string) :
  convert p stream byte_order "*" = Return stream.
Proof.
  unfold convert. rewrite String.eqb_refl.
  unfold Py.mul. rewrite Nat2Z.id.
  set (its := mjoin (replicate (length stream) [(1%nat, mkdef KChar 1 0)])).
  assert (Hlen : length stream = flat_len its) by (subst its; now rewrite char_run_len).
  rewrite (convert_body_plain p stream _ _ its).
  - f_equal. apply flip_fields_opaque; [apply char_run_opaque|exact Hlen].
  - apply parse_char_run.
  - apply all_opaque_plain, char_run_opaque.
  - rewrite items_size_unaligned by (apply all_plain_unaligned, all_opaque_plain, char_run_opaque).
    lia.
Qed.

(** ** The scanning loop of [gen_format_string] *)

Lemma mul_1 (s : string) : Py.mul 1 s = s.
Proof. unfold Py.mul. change (Z.to_nat 1) with 1%nat. apply rep_1. Qed.

Lemma scan_token_fixed (p : platform) (st : scan_state) (i : nat)
    (tok text : string) (n : Z) :
  fixed_part p tok = Some (text, n) ->
  scan_token p st i tok
  = Return (mkscan (fmt st +:+ text) (cumsize st + n)
                   (special_pattern st) (special_index st)).
Proof.
  unfold fixed_part, classify, scan_token.
  destruct (Py.split ":" tok) as [|pattern [|cnt rest]]; [discriminate| |].
  - rewrite mul_1. destruct (calcsize p pattern); [|discriminate].
    intros H. now inversion H.
  - destruct (Py.last_char cnt) as [c|]; [|discriminate].
    destruct (Ascii.eqb c "*"); [discriminate|].
    destruct (Py.int cnt) as [count|]; [|discriminate].
    cbv zeta. destruct (calcsize p (Py.mul count pattern)); [|discriminate].
    intros H. now inversion H.
Qed.

Lemma scan_token_wildcard (p : platform) (st : scan_state) (i : nat)
    (tok pattern : string) :
  classify tok = Return (pattern, None) ->
  scan_token p st i tok
  = if truthy (special_pattern st) then Raise MultipleWildcards
    else Return (mkscan (fmt st +:+ "{0}") (cumsize st) (Some pattern) (Some i)).
Proof.
  unfold classify, scan_token.
  destruct (Py.split ":" tok) as [|pat [|cnt rest]]; [discriminate|discriminate|].
  destruct (Py.last_char cnt) as [c|]; [|discriminate].
  destruct (Ascii.eqb c "*").
  - intros H. now inversion H.
  - destruct (Py.int cnt); discriminate.
Qed.

Lemma scan_app (p : platform) (a b : list string) : forall i st,
  scan p (a ++ b) i st =
  match scan p a i st with
  | Raise e => Raise e
  | Return st' => scan p b (i + length a) st'
  end.
Proof.
  induction a as [|tok a IH]; intros i st; simpl.
  - now rewrite Nat.add_0_r.
  - destruct (scan_token p st i tok); [|reflexivity].
    rewrite IH. now replace (S i + length a)%nat with (i + S (length a))%nat by lia.
Qed.

Lemma scan_fixed (p : platform) (toks : list string) (parts : list (string * Z)) :
  fixed_parts p toks parts ->
  forall i st,
    scan p toks i st
    = Return (mkscan (fmt st +:+ parts_text parts) (cumsize st + parts_size parts)
                     (special_pattern st) (special_index st)).
Proof.
  induction 1 as [|tok [text n] toks parts Htok _ IH]; intros i st; simpl.
  - rewrite append_nil_r, Z.add_0_r. now destruct st.
  - rewrite (scan_token_fixed p st i tok text n Htok), IH. simpl.
    now rewrite append_assoc, Z.add_assoc.
Qed.

(** The state after the loop on a descriptor with one wildcard token. *)
Lemma scan_one_wildcard (p : platform) (pre post : list string) (w pattern : string)
    (pre_parts post_parts : list (string * Z)) :
  fixed_parts p pre pre_parts ->
  fixed_parts p post post_parts ->
  classify w = Return (pattern, None) ->
  scan p (pre ++ w :: post) 0 scan_init
  = Return (mkscan (parts_text pre_parts +:+ "{0}" +:+ parts_text post_parts)
                   (parts_size pre_parts + parts_size post_parts)
                   (Some pattern) (Some (length pre))).
Proof.
  intros Hpre Hpost Hw.
  rewrite scan_app, (scan_fixed p pre pre_parts Hpre). simpl.
  rewrite (scan_token_wildcard p _ _ w pattern Hw). simpl.
  rewrite (scan_fixed p post post_parts Hpost). simpl.
  now rewrite append_assoc.
Qed.

Lemma one_wildcard_not_fallback (pre post : list string) (w pattern : string) :
  classify w = Return (pattern, None) -> pre ++ w :: post <> ["*"].
Proof.
  intros Hw Heq. destruct pre as [|x pre].
  - inversion Heq; subst. discriminate.
  - inversion Heq as [[Hx Hnil]]. now destruct pre.
Qed.

Lemma truthy_nonempty (s : string) : s <> EmptyString -> truthy (Some s) = true.
Proof. now destruct s. Qed.

Lemma final_check_not_division (p : platform) (f : string) (size : option Z) :
  final_check p f size <> Raise DivisionError.
Proof.
  unfold final_check. destruct (calcsize p ("=" +:+ f)); [|discriminate].
  destruct size as [sz|]; [|discriminate].
  destruct (negb (sz =? 0) && negb (sz =? z)); discriminate.
Qed.

(** *** The substitution of the placeholder *)

Lemma brace_free_app (a b : string) :
  brace_free (a +:+ b) = brace_free a && brace_free b.
Proof.
  induction a as [|c a IH]; [reflexivity|].
  rewrite append_cons. simpl. now rewrite IH, andb_assoc.
Qed.

Lemma format_brace_free (s arg : string) :
  brace_free s = true -> Py.format s arg = Some s.
Proof.
  induction s as [|c s IH]; [reflexivity|]. simpl. intros H.
  apply andb_true_iff in H as [Hc Hs]. unfold is_brace in Hc.
  apply negb_true_iff, orb_false_iff in Hc as [Ho Hcl].
  now rewrite Ho, Hcl, (IH Hs).
Qed.

(** What [fmt.format(result)] does on the format the loop built. *)
Lemma fmt_pieces_format (a b arg : string) :
  brace_free a = true -> brace_free b = true ->
  Py.format (a +:+ "{0}" +:+ b) arg = Some (a +:+ arg +:+ b).
Proof.
  intros Ha Hb. induction a as [|c a IH].
  - rewrite !append_nil_l.
    change (Py.format ("{0}" +:+ b) arg)
      with (option_map (String.append arg) (Py.format b arg)).
    now rewrite (format_brace_free b arg Hb).
  - rewrite 2!(append_cons c a). simpl in Ha. apply andb_true_iff in Ha as [Hc Has].
    unfold is_brace in Hc. apply negb_true_iff, orb_false_iff in Hc as [Ho Hcl].
    cbn [Py.format]. now rewrite Ho, Hcl, (IH Has).
Qed.

Lemma parse_brace_free (t : table) (s : string) :
  t "{"%char = None -> t "}"%char = None ->
  forall num its, parse t s num = Some its -> brace_free s = true.
Proof.
  intros Ho Hcl. induction s as [|c s IH]; intros num its H; [reflexivity|].
  simpl in *. apply andb_true_iff. split.
  - unfold is_brace. apply negb_true_iff, orb_false_iff.
    split; [destruct (Ascii.eqb_spec c "{") as [->|]|destruct (Ascii.eqb_spec c "}") as [->|]];
      try reflexivity; exfalso.
    + rewrite Ho in H. destruct num; discriminate.
    + rewrite Hcl in H. destruct num; discriminate.
  - destruct num as [n|].
    + destruct (Py.is_digit c); [exact (IH _ _ H)|].
      destruct (t c); [|discriminate].
      destruct (parse t s None) as [r|] eqn:Hr; [|discriminate]. exact (IH _ _ Hr).
    + destruct (Py.is_space c); [exact (IH _ _ H)|].
      destruct (Py.is_digit c); [exact (IH _ _ H)|].
      destruct (t c); [|discriminate].
      destruct (parse t s None) as [r|] eqn:Hr; [|discriminate]. exact (IH _ _ Hr).
Qed.

Lemma calcsize_brace_free (p : platform) (s : string) (n : Z) :
  calcsize p s = Some n -> brace_free s = true.
Proof.
  unfold calcsize, whichtable. destruct s as [|c s]; [reflexivity|].
  assert (Hstd : forall body its, parse std_table body None = Some its ->
                                  brace_free body = true)
    by (intros body its; now apply parse_brace_free).
  assert (Hnat : forall body its, parse (native_table p) body None = Some its ->
                                  brace_free body = true)
    by (intros body its; now apply parse_brace_free).
  repeat match goal with
  | |- context [Ascii.eqb c ?x] =>
      destruct (Ascii.eqb_spec c x) as [->|_];
      [destruct (parse _ s None) as [its|] eqn:Hp; [|discriminate];
       intros _; simpl; first [exact (Hstd _ _ Hp) | exact (Hnat _ _ Hp)]|]
  end.
  destruct (parse _ (String c s) None) as [its|] eqn:Hp; [|discriminate].
  intros _. exact (Hnat _ _ Hp).
Qed.

Lemma fixed_parts_brace_free (p : platform) (toks : list string)
    (parts : list (string * Z)) :
  fixed_parts p toks parts -> brace_free (parts_text parts) = true.
Proof.
  induction 1 as [|tok [text n] toks parts Htok _ IH]; [reflexivity|].
  simpl. rewrite brace_free_app, IH, andb_true_r.
  unfold fixed_part in Htok.
  destruct (classify tok) as [[pattern [count|]]|]; try discriminate.
  destruct (calcsize p (Py.mul count pattern)) as [m|] eqn:Hm; [|discriminate].
  inversion Htok; subst. exact (calcsize_brace_free p _ _ Hm).
Qed.

(** The wildcard resolved: on a descriptor with one wildcard token, when
    the remaining size is a multiple of the pattern's size the placeholder
    is replaced by the pattern repeated [remaining / chunksize] times, the
    token is rewritten in the list when [expand] is set, and the format goes
    through the final check. *)
Lemma wildcard_resolved (p : platform) (pre post : list string)
    (w pattern : string) (pre_parts post_parts : list (string * Z))
    (chunksize sz : Z) (expand : bool) :
  fixed_parts p pre pre_parts ->
  fixed_parts p post post_parts ->
  classify w = Return (pattern, None) ->
  pattern <> EmptyString ->
  calcsize p pattern = Some chunksize ->
  chunksize <> 0 ->
  let remaining := sz - (parts_size pre_parts + parts_size post_parts) in
  let count := remaining / chunksize in
  remaining mod chunksize = 0 ->
  gen_format_string p (pre ++ w :: post) (Some sz) expand
  = ((if expand then pre ++ Py.replace "*" (Py.str count) w :: post
      else pre ++ w :: post),
     final_check p (parts_text pre_parts +:+ Py.mul count pattern
                    +:+ parts_text post_parts) (Some sz)).
Proof.
  intros Hpre Hpost Hw Hne Hchunk Hnz remaining count Hdiv.
  unfold gen_format_string.
  destruct (decide (pre ++ w :: post = ["*"])) as [Heq|_];
    [destruct (one_wildcard_not_fallback pre post w pattern Hw Heq)|].
  rewrite (scan_one_wildcard p pre post w pattern _ _ Hpre Hpost Hw).
  cbn [special_pattern cumsize fmt special_index default]. unfold id.
  rewrite (truthy_nonempty pattern Hne), Hchunk.
  destruct (Z.eqb_spec chunksize 0) as [|_]; [contradiction|].
  fold remaining. rewrite Hdiv. cbn [Z.eqb negb]. fold count.
  rewrite fmt_pieces_format
    by (eapply fixed_parts_brace_free; eassumption).
  destruct expand; [|reflexivity].
  rewrite list_lookup_middle by reflexivity.
  f_equal. now rewrite insert_app_r_alt, Nat.sub_diag by lia.
Qed.

Lemma final_check_mismatch (p : platform) (f : string) (sz n : Z) :
  calcsize p ("=" +:+ f) = Some n -> sz <> 0 -> sz <> n ->
  final_check p f (Some sz) = Raise (SizeMismatch sz n).
Proof.
  intros Hn Hz Hne. unfold final_check. rewrite Hn.
  destruct (Z.eqb_spec sz 0); [contradiction|].
  destruct (Z.eqb_spec sz n); [contradiction|]. reflexivity.
Qed.

Lemma final_check_match (p : platform) (f : string) (sz : Z) :
  calcsize p ("=" +:+ f) = Some sz -> final_check p f (Some sz) = Return f.
Proof.
  intros Hn. unfold final_check. rewrite Hn, Z.eqb_refl.
  now rewrite andb_false_r.
Qed.

(** The resolved format is returned when it has the supplied size in the
    standard sizes, which is so when the fixed tokens take as many bytes in
    the native sizes as in the standard ones. *)
Lemma wildcard_resolved_returns (p : platform) (pre post : list string)
    (w pattern : string) (pre_parts post_parts : list (string * Z))
    (chunksize sz : Z) :
  fixed_parts p pre pre_parts ->
  fixed_parts p post post_parts ->
  classify w = Return (pattern, None) ->
  pattern <> EmptyString ->
  calcsize p pattern = Some chunksize ->
  chunksize <> 0 ->
  let remaining := sz - (parts_size pre_parts + parts_size post_parts) in
  let f := parts_text pre_parts +:+ Py.mul (remaining / chunksize) pattern
           +:+ parts_text post_parts in
  remaining mod chunksize = 0 ->
  calcsize p ("=" +:+ f) = Some sz ->
  gen_format_string p (pre ++ w :: post) (Some sz) false
  = (pre ++ w :: post, Return f).
Proof.
  intros Hpre Hpost Hw Hne Hchunk Hnz remaining f Hdiv Hsize.
  rewrite (wildcard_resolved p pre post w pattern pre_parts post_parts
             chunksize sz false Hpre Hpost Hw Hne Hchunk Hnz Hdiv).
  fold remaining. fold f. now rewrite (final_check_match p f sz Hsize).
Qed.

Lemma scan_token_well_formed (p : platform) (st : scan_state) (i : nat) (tok : string) :
  well_formed p tok = true ->
  if is_wildcard tok then
    if truthy (special_pattern st) then scan_token p st i tok = Raise MultipleWildcards
    else exists st', scan_token p st i tok = Return st' /\ seen st' = 1%nat
  else exists st', scan_token p st i tok = Return st' /\ seen st' = seen st.
Proof.
  unfold well_formed, is_wildcard. intros Hwf.
  destruct (classify tok) as [[pattern [count|]]|e] eqn:Hc; [| |discriminate].
  - destruct (calcsize p (Py.mul count pattern)) as [n|] eqn:Hn; [|discriminate].
    assert (Hf : fixed_part p tok = Some (Py.mul count pattern, n))
      by (unfold fixed_part; now rewrite Hc, Hn).
    rewrite (scan_token_fixed p st i tok _ n Hf). eexists; split; reflexivity.
  - rewrite (scan_token_wildcard p st i tok pattern Hc).
    destruct (truthy (special_pattern st)); [reflexivity|].
    eexists; split; [reflexivity|]. unfold seen. simpl.
    destruct pattern; [discriminate|reflexivity].
Qed.

(** The loop over well-formed tokens: it raises as soon as a second
    wildcard comes, and otherwise ends having seen what there was. *)
Lemma scan_well_formed (p : platform) (toks : list string) :
  Forall (fun tok => well_formed p tok = true) toks ->
  forall i st,
    if (2 <=? seen st + wildcards toks)%nat
    then scan p toks i st = Raise MultipleWildcards
    else exists st', scan p toks i st = Return st'
                     /\ seen st' = (seen st + wildcards toks)%nat.
Proof.
  induction 1 as [|tok toks Htok _ IH]; intros i st; cbn [scan wildcards].
  - rewrite Nat.add_0_r.
    assert (Hs : (seen st <= 1)%nat) by (unfold seen; destruct (truthy _); lia).
    destruct (2 <=? seen st)%nat eqn:E; [apply Nat.leb_le in E; lia|].
    now exists st.
  - pose proof (scan_token_well_formed p st i tok Htok) as Hstep.
    destruct (is_wildcard tok).
    + destruct (truthy (special_pattern st)) eqn:Ht.
      * assert (Hst : seen st = 1%nat) by (unfold seen; now rewrite Ht).
        rewrite Hst, Hstep.
        replace (2 <=? 1 + (1 + wildcards toks))%nat with true
          by (symmetry; apply Nat.leb_le; lia).
        reflexivity.
      * assert (Hst : seen st = 0%nat) by (unfold seen; now rewrite Ht).
        rewrite Hst. destruct Hstep as (st' & -> & Hseen).
        specialize (IH (S i) st'). rewrite Hseen in IH. exact IH.
    + destruct Hstep as (st' & -> & Hseen). specialize (IH (S i) st').
      rewrite Hseen in IH. exact IH.
Qed.

Lemma wildcards_fallback : wildcards ["*"] = O.
Proof. reflexivity. Qed.

(** ** The claims on [gen_format_string] *)

(** C6.  A descriptor of well-formed tokens with two or more wildcard tokens
    is refused with MultipleWildcards, whether a size is given or not,
    whatever the size, and whatever [expand] is; the caller's list is left
    as it was. *)
Theorem multiple_wildcards_rejected (p : platform) (formats : list string)
    (size : option Z) (expand : bool) :
  Forall (fun tok => well_formed p tok = true) formats ->
  (2 <= wildcards formats)%nat ->
  gen_format_string p formats size expand = (formats, Raise MultipleWildcards).
Proof.
  intros Hwf Hn. unfold gen_format_string.
  destruct (decide (formats = ["*"])) as [->|_].
  - rewrite wildcards_fallback in Hn. lia.
  - pose proof (scan_well_formed p formats Hwf 0%nat scan_init) as Hscan.
    change (seen scan_init) with 0%nat in Hscan. rewrite Nat.add_0_l in Hscan.
    destruct (2 <=? wildcards formats)%nat eqn:E; [|apply Nat.leb_gt in E; lia].
    now rewrite Hscan.
Qed.

Lemma multiple_wildcards_rejected_witness :
  gen_format_string lp64 ["4s:*"; "2s:*"] (Some 12) true
  = (["4s:*"; "2s:*"], Raise MultipleWildcards).
Proof.
  apply (multiple_wildcards_rejected lp64 ["4s:*"; "2s:*"] (Some 12) true).
  - repeat constructor.
  - simpl. lia.
Defined.

(** *** Descriptors without a wildcard *)

Lemma calcsize_std (p : platform) (s : string) :
  calcsize p ("=" +:+ s)
  = option_map (fun its => items_size its 0) (parse std_table s None).
Proof. reflexivity. Qed.

(** A string the standard table accepts starts with no prefix character,
    so without a prefix it is read with the native table. *)
Lemma whichtable_native (p : platform) (s : string) (its : list item) :
  parse std_table s None = Some its ->
  whichtable p s = (native_table p, host_endian p, s).
Proof.
  destruct s as [|c s]; [reflexivity|]. intros H. unfold whichtable.
  destruct (Ascii.eqb_spec c "<") as [->|_]; [discriminate|].
  destruct (Ascii.eqb_spec c ">") as [->|_]; [discriminate|].
  destruct (Ascii.eqb_spec c "!") as [->|_]; [discriminate|].
  destruct (Ascii.eqb_spec c "=") as [->|_]; [discriminate|].
  destruct (Ascii.eqb_spec c "@") as [->|_]; [discriminate|].
  reflexivity.
Qed.

Lemma calcsize_native_of_std (p : platform) (s : string) (its : list item) :
  parse std_table s None = Some its -> is_Some (calcsize p s).
Proof.
  intros H. unfold calcsize. rewrite (whichtable_native p s its H).
  destruct (parse_std_native p s None its H) as [its' ->].
  eexists; reflexivity.
Qed.

Lemma flat_len_rep (its : list item) (k : nat) :
  flat_len (mjoin (replicate k its)) = (k * flat_len its)%nat.
Proof.
  induction k as [|k IH]; simpl; [reflexivity|].
  now rewrite flat_len_app, IH.
Qed.

Lemma valid_fixed_parts (p : platform) (toks : list string)
    (xs : list (string * Z * Z)) :
  Forall2 (valid_fixed p) toks xs ->
  exists parts its,
    fixed_parts p toks parts
    /\ parse std_table (parts_text parts) None = Some its
    /\ Z.of_nat (flat_len its) = total_width xs.
Proof.
  induction 1 as [|tok [[pattern count] width] toks xs Hv _ IH].
  - exists [], []. repeat split; constructor.
  - destruct IH as (parts & its & Hparts & Hparse & Hlen).
    destruct Hv as (Hc & Hcount & Hw). simpl in Hc, Hcount, Hw.
    rewrite calcsize_std in Hw.
    destruct (parse std_table pattern None) as [ip|] eqn:Hp; [|discriminate].
    simpl in Hw. inversion Hw as [Hwidth]; clear Hw.
    rewrite items_size_unaligned in Hwidth by (eapply parse_std_unaligned; exact Hp).
    pose proof (parse_rep std_table pattern ip (Z.to_nat count) Hp) as Hrep.
    fold (Py.mul count pattern) in Hrep.
    destruct (calcsize_native_of_std p _ _ Hrep) as [n Hn].
    exists ((Py.mul count pattern, n) :: parts), (mjoin (replicate (Z.to_nat count) ip) ++ its).
    repeat split.
    + constructor; [|exact Hparts]. unfold fixed_part. now rewrite Hc, Hn.
    + simpl. rewrite (parse_app _ _ _ _ _ Hrep), Hparse. reflexivity.
    + cbn [total_width foldr fst snd]. fold (total_width xs).
      rewrite flat_len_app, flat_len_rep, Nat2Z.inj_add, Nat2Z.inj_mul.
      rewrite Z2Nat.id, Hlen by lia.
      rewrite (items_size_unaligned ip 0) by (eapply parse_std_unaligned; exact Hp).
      lia.
Qed.

Lemma valid_fixed_not_fallback (p : platform) (xs : list (string * Z * Z)) :
  ~ Forall2 (valid_fixed p) ["*"] xs.
Proof.
  intros H. inversion H as [|? x ? ? Hv _]; subst.
  destruct Hv as (Hc & _ & Hw). inversion Hc as [[Hpat Hcount]].
  rewrite <- Hpat in Hw. discriminate.
Qed.

(** C7.  On a valid descriptor without wildcard the result is a function of
    the inputs, and the format's byte size is the sum over the tokens of
    count * width(pattern); it is returned, unless a non-zero size is given
    that differs from this sum. *)
Theorem no_wildcard_size (p : platform) (formats : list string)
    (xs : list (string * Z * Z)) (size : option Z) (expand : bool) :
  Forall2 (valid_fixed p) formats xs ->
  (forall formats' size' expand',
      formats' = formats -> size' = size -> expand' = expand ->
      gen_format_string p formats' size' expand'
      = gen_format_string p formats size expand)
  /\ exists f,
      calcsize p ("=" +:+ f) = Some (total_width xs)
      /\ gen_format_string p formats size expand
         = (formats,
            match size with
            | Some sz =>
                if negb (sz =? 0) && negb (sz =? total_width xs)
                then Raise (SizeMismatch sz (total_width xs))
                else Return f
            | None => Return f
            end).
Proof.
  intros Hv. split; [now intros ? ? ? -> -> ->|].
  destruct (valid_fixed_parts p formats xs Hv) as (parts & its & Hparts & Hparse & Hlen).
  assert (Hsize : calcsize p ("=" +:+ parts_text parts) = Some (total_width xs)).
  { rewrite calcsize_std, Hparse. simpl.
    rewrite items_size_unaligned by (eapply parse_std_unaligned; exact Hparse).
    f_equal. lia. }
  exists (parts_text parts). split; [exact Hsize|].
  unfold gen_format_string.
  destruct (decide (formats = ["*"])) as [->|_];
    [destruct (valid_fixed_not_fallback p xs Hv)|].
  rewrite (scan_fixed p formats parts Hparts).
  cbn [truthy special_pattern scan_init fmt]. rewrite append_nil_l.
  unfold final_check. rewrite Hsize. reflexivity.
Qed.

Lemma no_wildcard_size_witness :
  exists f,
    calcsize lp64 ("=" +:+ f) = Some 52
    /\ gen_format_string lp64 ["id4s:2"; "f2d"] None false
       = (["id4s:2"; "f2d"], Return f).
Proof.
  refine (proj2 (no_wildcard_size lp64 ["id4s:2"; "f2d"]
                   [("id4s", 2, 16); ("f2d", 1, 20)] None false _)).
  constructor; [split; [reflexivity|split; [cbn; lia|reflexivity]]|].
  constructor; [split; [reflexivity|split; [cbn; lia|reflexivity]]|].
  constructor.
Defined.

(** *** The remaining size, where the sizes are the standard ones *)

Lemma calcsize_std_app (p : platform) (a b : string) (m n : Z) :
  calcsize p ("=" +:+ a) = Some m ->
  calcsize p ("=" +:+ b) = Some n ->
  calcsize p ("=" +:+ a +:+ b) = Some (m + n).
Proof.
  rewrite !calcsize_std.
  destruct (parse std_table a None) as [ia|] eqn:Ha; [|discriminate].
  destruct (parse std_table b None) as [ib|] eqn:Hb; [|discriminate].
  rewrite (parse_app std_table a b None ia Ha), Hb. simpl.
  pose proof (parse_std_unaligned a None ia Ha) as Hua.
  pose proof (parse_std_unaligned b None ib Hb) as Hub.
  rewrite !items_size_unaligned by (try apply Forall_app; auto).
  rewrite flat_len_app. intros [= <-] [= <-]. f_equal. lia.
Qed.

Lemma calcsize_std_mul (p : platform) (pattern : string) (count c : Z) :
  calcsize p ("=" +:+ pattern) = Some c ->
  0 <= c
  /\ calcsize p ("=" +:+ Py.mul count pattern) = Some (Z.of_nat (Z.to_nat count) * c).
Proof.
  rewrite !calcsize_std.
  destruct (parse std_table pattern None) as [its|] eqn:Hp; [|discriminate].
  unfold Py.mul. rewrite (parse_rep std_table pattern its _ Hp). simpl.
  pose proof (parse_std_unaligned pattern None its Hp) as Hu.
  pose proof (parse_std_unaligned _ None _
                (parse_rep std_table pattern its (Z.to_nat count) Hp)) as Hur.
  rewrite !items_size_unaligned by assumption.
  rewrite flat_len_rep. intros [= <-]. split; [lia|]. f_equal. lia.
Qed.

Lemma same_in_std_size (p : platform) (parts : list (string * Z)) :
  same_in_std p parts ->
  calcsize p ("=" +:+ parts_text parts) = Some (parts_size parts).
Proof.
  induction 1 as [|[t n] parts Ht _ IH]; [reflexivity|].
  simpl in *. exact (calcsize_std_app p t _ n _ Ht IH).
Qed.

(** C4, with the standard sizes.  On a descriptor with one wildcard token
    whose fixed tokens and wildcard pattern take as many bytes with the
    native sizes as with the standard ones, and a wildcard pattern of
    non-zero size: the outcome is DivisionError exactly when the remaining
    size is not a multiple of the pattern's size; a negative remaining size
    that is a multiple fails too, for a size that is not zero, but with
    SizeMismatch; a remaining size that is a multiple and not negative gives
    the format. *)
Theorem division_error_iff (p : platform) (pre post : list string)
    (w pattern : string) (pre_parts post_parts : list (string * Z))
    (chunksize sz : Z) (expand : bool) :
  fixed_parts p pre pre_parts ->
  fixed_parts p post post_parts ->
  same_in_std p pre_parts ->
  same_in_std p post_parts ->
  classify w = Return (pattern, None) ->
  pattern <> EmptyString ->
  calcsize p pattern = Some chunksize ->
  calcsize p ("=" +:+ pattern) = Some chunksize ->
  chunksize <> 0 ->
  let fixed := parts_size pre_parts + parts_size post_parts in
  let remaining := sz - fixed in
  let outcome := snd (gen_format_string p (pre ++ w :: post) (Some sz) expand) in
  (outcome = Raise DivisionError <-> remaining mod chunksize <> 0)
  /\ (remaining mod chunksize = 0 -> remaining < 0 -> sz <> 0 ->
      outcome = Raise (SizeMismatch sz fixed))
  /\ (remaining mod chunksize = 0 -> 0 <= remaining ->
      outcome = Return (parts_text pre_parts
                        +:+ Py.mul (remaining / chunksize) pattern
                        +:+ parts_text post_parts)).
Proof.
  intros Hpre Hpost Hspre Hspost Hw Hne Hchunk Hstd Hnz fixed remaining outcome.
  assert (Hresolved : remaining mod chunksize = 0 ->
            outcome = final_check p (parts_text pre_parts
                        +:+ Py.mul (remaining / chunksize) pattern
                        +:+ parts_text post_parts) (Some sz)).
  { intros Hdiv. subst outcome.
    now rewrite (wildcard_resolved p pre post w pattern pre_parts post_parts
                   chunksize sz expand Hpre Hpost Hw Hne Hchunk Hnz Hdiv). }
  assert (Hsize : calcsize p ("=" +:+ parts_text pre_parts
                    +:+ Py.mul (remaining / chunksize) pattern
                    +:+ parts_text post_parts)
                  = Some (parts_size pre_parts
                          + (Z.of_nat (Z.to_nat (remaining / chunksize)) * chunksize
                             + parts_size post_parts))).
  { apply calcsize_std_app; [now apply same_in_std_size|].
    apply calcsize_std_app; [|now apply same_in_std_size].
    now apply calcsize_std_mul. }
  assert (Hpos : 0 < chunksize)
    by (destruct (calcsize_std_mul p pattern 0 chunksize Hstd) as [? _]; lia).
  split; [|split].
  - split.
    + intros H Hdiv. rewrite (Hresolved Hdiv) in H.
      now apply final_check_not_division in H.
    + intros Hdiv. subst outcome. unfold gen_format_string.
      destruct (decide (pre ++ w :: post = ["*"])) as [Heq|_];
        [destruct (one_wildcard_not_fallback pre post w pattern Hw Heq)|].
      rewrite (scan_one_wildcard p pre post w pattern _ _ Hpre Hpost Hw).
      cbn [special_pattern cumsize fmt special_index default]. unfold id.
      rewrite (truthy_nonempty pattern Hne), Hchunk.
      destruct (Z.eqb_spec chunksize 0) as [|_]; [contradiction|].
      fold fixed. fold remaining.
      destruct (Z.eqb_spec (remaining mod chunksize) 0) as [Hz|_];
        [contradiction|reflexivity].
  - intros Hdiv Hneg Hsz. rewrite (Hresolved Hdiv).
    assert (Hcount : Z.to_nat (remaining / chunksize) = 0%nat).
    { assert (remaining / chunksize < 0) by (apply Z.div_lt_upper_bound; lia).
      lia. }
    rewrite Hcount in Hsize.
    replace (parts_size pre_parts + (Z.of_nat 0 * chunksize + parts_size post_parts))
      with fixed in Hsize by (subst fixed; lia).
    apply final_check_mismatch; [exact Hsize|exact Hsz|subst remaining; lia].
  - intros Hdiv Hge. rewrite (Hresolved Hdiv).
    apply final_check_match. rewrite Hsize. f_equal.
    assert (0 <= remaining / chunksize) by (apply Z.div_pos; lia).
    rewrite Z2Nat.id by assumption.
    pose proof (Z.div_mod remaining chunksize Hnz) as Hdm.
    rewrite Hdiv in Hdm. subst remaining fixed. lia.
Qed.

Lemma division_error_iff_witness :
  snd (gen_format_string lp64 (["i"] ++ "4s:*" :: []) (Some 9) false)
  = Raise DivisionError.
Proof.
  refine (proj2 (proj1 (division_error_iff lp64 ["i"] [] "4s:*" "4s"
                          [("i", 4)] [] 4 9 false _ _ _ _ _ _ _ _ _)) _).
  - repeat constructor.
  - constructor.
  - repeat constructor.
  - constructor.
  - reflexivity.
  - discriminate.
  - reflexivity.
  - reflexivity.
  - lia.
  - vm_compute. discriminate.
Defined.

(** A remaining size that is a multiple of 4: negative (4 bytes for two
    integers and the wildcard), positive, and zero. *)
Example remaining_size_examples :
  snd (gen_format_string lp64 ["i"; "i"; "4s:*"] (Some 4) false)
    = Raise (SizeMismatch 4 8)
  /\ snd (gen_format_string lp64 ["i"; "4s:*"] (Some 12) false) = Return "i4s4s"
  /\ snd (gen_format_string lp64 ["i"; "4s:*"] (Some 4) false) = Return "i".
Proof. repeat split. Qed.

(** *** The wildcard test *)

Lemma split_head_no_sep (sep : ascii) (s : string) : forall h r,
  Py.split sep s = h :: r -> has_char sep h = false.
Proof.
  induction s as [|c s IH]; intros h r H; simpl in H.
  - now inversion H.
  - destruct (Ascii.eqb c sep) eqn:Hc.
    + now inversion H.
    + destruct (Py.split sep s) as [|h' t] eqn:Hs; inversion H; subst; simpl;
        rewrite Hc; simpl.
      * reflexivity.
      * eapply IH; reflexivity.
Qed.

Lemma split_no_sep_cons (sep : ascii) (h t : string) :
  has_char sep h = false ->
  Py.split sep (h +:+ String sep t) = h :: Py.split sep t.
Proof.
  induction h as [|c h IH]; intros H.
  - rewrite append_nil_l. simpl. now rewrite Ascii.eqb_refl.
  - rewrite append_cons. simpl in *. apply orb_false_iff in H as [Hc Hh].
    now rewrite Hc, (IH Hh).
Qed.

(** C10.  A token whose count part ends in ['*'] is the wildcard token: the
    loop saves its pattern and position and appends the placeholder, or
    raises MultipleWildcards when a wildcard was seen before, and it does on
    it what it does on the token [pattern:*]. *)
Theorem wildcard_by_last_char (p : platform) (st : scan_state) (i : nat)
    (tok pattern cnt : string) (rest : list string) :
  Py.split ":" tok = pattern :: cnt :: rest ->
  Py.last_char cnt = Some "*"%char ->
  classify tok = Return (pattern, None)
  /\ scan_token p st i tok
     = (if truthy (special_pattern st) then Raise MultipleWildcards
        else Return (mkscan (fmt st +:+ "{0}") (cumsize st) (Some pattern) (Some i)))
  /\ scan_token p st i tok = scan_token p st i (pattern +:+ ":*").
Proof.
  intros Hsplit Hlast.
  assert (Hc : classify tok = Return (pattern, None))
    by (unfold classify; now rewrite Hsplit, Hlast).
  assert (Hc' : classify (pattern +:+ ":*") = Return (pattern, None)).
  { unfold classify.
    rewrite (split_no_sep_cons ":" pattern "*" (split_head_no_sep _ _ _ _ Hsplit)).
    reflexivity. }
  split; [exact Hc|]. split.
  - now apply scan_token_wildcard.
  - now rewrite (scan_token_wildcard p st i tok pattern Hc),
                (scan_token_wildcard p st i _ pattern Hc').
Qed.

Lemma wildcard_by_last_char_witness :
  classify "4s:3*" = Return ("4s", None)
  /\ scan_token lp64 scan_init 1 "4s:3*"
     = Return (mkscan "{0}" 0 (Some "4s") (Some 1%nat))
  /\ scan_token lp64 scan_init 1 "4s:3*" = scan_token lp64 scan_init 1 "4s:*".
Proof.
  apply (wildcard_by_last_char lp64 scan_init 1 "4s:3*" "4s" "3*" []);
    reflexivity.
Defined.

(** The token ["4s:3*"] counts for the MultipleWildcards check. *)
Example second_wildcard_by_last_char :
  gen_format_string lp64 ["4s:*"; "2s:7*"] None false
  = (["4s:*"; "2s:7*"], Raise MultipleWildcards).
Proof. reflexivity. Qed.

(** *** Evaluations *)

(** The example of the documentation and of the spec. *)
Example wildcard_example :
  gen_format_string lp64 ["i"; "4s:*"] (Some 12) false = (["i"; "4s:*"], Return "i4s4s")
  /\ gen_format_string lp64 ["i"; "4s:*"] (Some 9) false = (["i"; "4s:*"], Raise DivisionError)
  /\ gen_format_string lp64 ["i"; "4s:*"] None false = (["i"; "4s:*"], Return "i{0}").
Proof. repeat split. Qed.

(** C3 fails where the native size of a fixed token is not its size in the
    file.  The file layout of ["ci"] is 5 bytes (the final check and
    [convert] use the standard sizes), so with 13 bytes the remaining 8 are
    two ["4s"] and ["ci4s4s"] has the 13 bytes; but the loop measures ["ci"]
    with the native, aligned sizes (8 bytes), finds 5 bytes left and raises
    DivisionError; with 16 bytes it resolves the count to 2 and the final
    check refuses the result. *)
Theorem wildcard_native_padding :
  calcsize lp64 "=ci" = Some 5
  /\ calcsize lp64 "=4s" = Some 4
  /\ (13 - 5) mod 4 = 0
  /\ calcsize lp64 ("=" +:+ "ci" +:+ Py.mul ((13 - 5) / 4) "4s") = Some 13
  /\ calcsize lp64 "ci" = Some 8
  /\ gen_format_string lp64 ["ci"; "4s:*"] (Some 13) false
     = (["ci"; "4s:*"], Raise DivisionError)
  /\ gen_format_string lp64 ["ci"; "4s:*"] (Some 16) false
     = (["ci"; "4s:*"], Raise (SizeMismatch 16 13)).
Proof. repeat split. Qed.

(** C4 as stated fails: with 4 bytes for ["i"; "i"; "4s:*"] the remaining
    size is -4, a multiple of 4, and the outcome is SizeMismatch. *)
Lemma negative_remaining_counterexample :
  calcsize lp64 "i" = Some 4
  /\ calcsize lp64 "4s" = Some 4
  /\ 4 - (4 + 4) < 0
  /\ gen_format_string lp64 ["i"; "i"; "4s:*"] (Some 4) false
     = (["i"; "i"; "4s:*"], Raise (SizeMismatch 4 8))
  /\ snd (gen_format_string lp64 ["i"; "i"; "4s:*"] (Some 4) false)
     <> Raise DivisionError.
Proof. repeat split; try reflexivity. discriminate. Qed.

(** C5 fails for the size 0: the test [if size and ...] takes 0 for no size
    at all, and the 4-byte format is returned for a file of 0 bytes. *)
Theorem zero_size_unchecked :
  calcsize lp64 "=i" = Some 4
  /\ gen_format_string lp64 ["i"] (Some 0) false = (["i"], Return "i").
Proof. split; reflexivity. Qed.

(** The size check of the spec's example. *)
Example size_mismatch_example :
  gen_format_string lp64 ["i"; "i"] (Some 10) false
  = (["i"; "i"], Raise (SizeMismatch 10 8)).
Proof. reflexivity. Qed.

(** C9 fails: with [expand] the wildcard token is overwritten in the list
    the caller passed, and the returned list is that same object. *)
Theorem expand_mutates_argument :
  gen_format_string lp64 ["i"; "4s:*"] (Some 12) true = (["i"; "4s:2"], Return "i4s4s")
  /\ call_gen_format_string lp64 {[ 7%nat := ["i"; "4s:*"] ]} 7%nat (Some 12) true
     = Some ({[ 7%nat := ["i"; "4s:2"] ]}, Return ("i4s4s", 7%nat)).
Proof.
  split; [reflexivity|]. vm_compute. reflexivity.
Qed.

(** ** The claims on [convert] *)

(** C1, as the code has it.  For a format of integer, char and string
    fields and a buffer of the format's size, converting from order A to
    order B and back from B to A gives the buffer back, whatever A and B
    are (so also for A <> B). *)
Theorem round_trip_plain (p : platform) (fmt : string) (buffer : list byte)
    (A B : string) (its : list item) :
  parse std_table fmt None = Some its ->
  all_plain its ->
  Z.of_nat (length buffer) = items_size its 0 ->
  exists mid,
    transcode p buffer fmt A B = Return mid
    /\ transcode p mid fmt B A = Return buffer.
Proof.
  intros Hparse Hplain Hlen. unfold transcode.
  assert (Hflat : length buffer = flat_len its).
  { rewrite items_size_unaligned in Hlen by now apply all_plain_unaligned. lia. }
  exists (flip_fields its buffer). split.
  - now apply convert_plain.
  - rewrite (convert_plain p _ _ fmt its Hparse Hplain).
    + now rewrite flip_fields_involutive.
    + now rewrite length_flip_fields.
Qed.

Lemma round_trip_plain_witness :
  exists mid,
    transcode lp64 [Byte.x01; Byte.x02; Byte.x61; Byte.x62] "h2s" "little" "big"
      = Return mid
    /\ transcode lp64 mid "h2s" "big" "little"
      = Return [Byte.x01; Byte.x02; Byte.x61; Byte.x62].
Proof.
  apply (round_trip_plain lp64 "h2s" [Byte.x01; Byte.x02; Byte.x61; Byte.x62]
           "little" "big" [(1%nat, mkdef (KInt true) 2 0); (2%nat, mkdef KString 1 0)]).
  - reflexivity.
  - repeat constructor.
  - reflexivity.
Defined.

(** C1 as stated fails on a boolean field: a byte 2 under the format ["?"]
    (size 1) comes back as 1 after the two conversions. *)
Lemma round_trip_bool_counterexample :
  calcsize lp64 "=?" = Some (Z.of_nat (length [Byte.x02]))
  /\ transcode lp64 [Byte.x02] "?" "little" "big" = Return [Byte.x01]
  /\ transcode lp64 [Byte.x01] "?" "big" "little" = Return [Byte.x01]
  /\ [Byte.x01] <> [Byte.x02].
Proof. repeat split; try reflexivity. discriminate. Qed.

(** The same on a pad byte: format ["x"], byte 5 comes back as 0. *)
Example round_trip_pad :
  transcode lp64 [Byte.x05] "x" "little" "big" = Return [Byte.x00]
  /\ transcode lp64 [Byte.x00] "x" "big" "little" = Return [Byte.x00].
Proof. split; reflexivity. Qed.

(** C2 as stated fails: a conversion from little to big is
    [convert(..., byte_order='big')], which unpacks with ['<'] and packs
    with ['>']; the claim has it the other way round.  Under ['<'] the input
    01 00 00 00 is read as 1, under ['>'] as 16777216. *)
Lemma source_order_pairing_counterexample :
  fmt_in_out "big" "i" = ("<i", ">i")
  /\ claimed_fmt_in_out "little" "i" = (">i", "<i")
  /\ fmt_in_out "big" "i" <> claimed_fmt_in_out "little" "i"
  /\ unpack lp64 "<i" [Byte.x01; Byte.x00; Byte.x00; Byte.x00] = inr [VInt 1]
  /\ unpack lp64 ">i" [Byte.x01; Byte.x00; Byte.x00; Byte.x00] = inr [VInt 16777216].
Proof. repeat split; try reflexivity. discriminate. Qed.

(** C2, as the code has it.  The two tags are paired on the order converted
    to: ['>'] for unpacking and ['<'] for packing when it is "little", ['<']
    and ['>'] for any other value; they always differ; and on a format of
    integer, char and string fields the result is the buffer with the bytes
    of every integer field reversed and every other field copied. *)
Theorem convert_pairs_and_flips (p : platform) (stream : list byte)
    (byte_order : option string) (fmt : string) (its : list item) :
  parse std_table fmt None = Some its ->
  all_plain its ->
  Z.of_nat (length stream) = items_size its 0 ->
  let order := default (sys_byteorder p) byte_order in
  fmt_in_out order fmt
    = (if String.eqb order "little"
       then (String ">" fmt, String "<" fmt)
       else (String "<" fmt, String ">" fmt))
  /\ fst (fmt_in_out order fmt) <> snd (fmt_in_out order fmt)
  /\ convert p stream byte_order fmt = Return (flip_fields its stream).
Proof.
  intros Hparse Hplain Hlen order. split; [apply fmt_in_out_eq|]. split.
  - rewrite fmt_in_out_eq. destruct (String.eqb order "little"); discriminate.
  - now apply convert_plain.
Qed.

Lemma convert_pairs_and_flips_witness :
  convert lp64 [Byte.x00; Byte.x00; Byte.x00; Byte.x01;
                Byte.x00; Byte.x00; Byte.x00; Byte.x02] (Some "little") "2i"
  = Return [Byte.x01; Byte.x00; Byte.x00; Byte.x00;
            Byte.x02; Byte.x00; Byte.x00; Byte.x00].
Proof.
  refine (proj2 (proj2 (convert_pairs_and_flips lp64
            [Byte.x00; Byte.x00; Byte.x00; Byte.x01;
             Byte.x00; Byte.x00; Byte.x00; Byte.x02]
            (Some "little") "2i" [(2%nat, mkdef (KInt true) 4 0)] _ _ _))).
  - reflexivity.
  - repeat constructor.
  - reflexivity.
Defined.

(** The bytes of the raw fields stay where they are and what they are,
    whatever stands beside them in the format. *)
Lemma flip_fields_keeps_opaque (its : list item) :
  forall (data : list byte) (i : nat),
    length data = flat_len its ->
    opaque_bytes its !! i = Some true ->
    flip_fields its data !! i = data !! i.
Proof.
  induction its as [|[n e] r IH]; intros data i Hlen Hi; simpl in *.
  - discriminate.
  - set (len := (n * fsize e)%nat) in *.
    assert (Hfield : length (take len data) = len) by (rewrite length_take; lia).
    assert (Hrest : length (drop len data) = flat_len r)
      by (rewrite length_drop; lia).
    destruct (decide (i < len)%nat) as [Hlt|Hge].
    + rewrite lookup_app_l in Hi by now rewrite length_replicate.
      apply lookup_replicate_1 in Hi as [Hop _].
      assert (Hk : match fkind e with KInt _ => False | _ => True end).
      { unfold opaque in Hop. symmetry in Hop.
        apply andb_true_iff in Hop as [_ Hop].
        now destruct (fkind e). }
      assert (Hhead : (take len data ++ flip_fields r (drop len data)) !! i
                      = data !! i).
      { rewrite lookup_app_l by lia. now apply lookup_take_lt. }
      destruct (fkind e); try exact Hhead. contradiction.
    + rewrite lookup_app_r in Hi by (rewrite length_replicate; lia).
      rewrite length_replicate in Hi.
      assert (Htail : forall head : list byte, length head = len ->
                (head ++ flip_fields r (drop len data)) !! i = data !! i).
      { intros head Hhead. rewrite lookup_app_r by lia. rewrite Hhead.
        rewrite (IH (drop len data) (i - len)%nat Hrest Hi), lookup_drop.
        f_equal. lia. }
      destruct (fkind e); try exact (Htail _ Hfield).
      apply Htail. rewrite length_flip_chunks; [exact Hfield|].
      rewrite Hfield. subst len. lia.
Qed.

(** C8.  With the fallback format ["*"] the format is one [c] per byte of
    the input and the output is the input, byte for byte, whatever the
    order; and so it is for every format made of [c] and [s] fields.  In a
    format that mixes them with integer fields, every byte of a [c] or [s]
    field is in the output at its place, whatever the order. *)
Theorem opaque_fields_copied (p : platform) (stream : list byte)
    (byte_order : option string) :
  parse std_table (Py.mul (Z.of_nat (length stream)) "c") None
    = Some (mjoin (replicate (length stream) [(1%nat, mkdef KChar 1 0)]))
  /\ convert p stream byte_order "*" = Return stream
  /\ (forall (fmt : string) (its : list item),
      parse std_table fmt None = Some its ->
      all_opaque its ->
      Z.of_nat (length stream) = items_size its 0 ->
      convert p stream byte_order fmt = Return stream)
  /\ (forall (fmt : string) (its : list item),
      parse std_table fmt None = Some its ->
      all_plain its ->
      Z.of_nat (length stream) = items_size its 0 ->
      exists out,
        convert p stream byte_order fmt = Return out
        /\ length out = length stream
        /\ forall i, opaque_bytes its !! i = Some true ->
                     out !! i = stream !! i).
Proof.
  split; [|split; [|split]].
  - unfold Py.mul. rewrite Nat2Z.id. apply parse_char_run.
  - apply convert_fallback.
  - intros fmt its Hparse Hop Hlen.
    rewrite (convert_plain p stream byte_order fmt its Hparse
               (all_opaque_plain its Hop) Hlen).
    f_equal. apply flip_fields_opaque; [exact Hop|].
    rewrite items_size_unaligned in Hlen
      by (apply all_plain_unaligned, all_opaque_plain, Hop).
    lia.
  - intros fmt its Hparse Hplain Hlen.
    assert (Hflat : length stream = flat_len its).
    { rewrite items_size_unaligned in Hlen by now apply all_plain_unaligned.
      lia. }
    exists (flip_fields its stream). split; [|split].
    + exact (convert_plain p stream byte_order fmt its Hparse Hplain Hlen).
    + now apply length_flip_fields.
    + intros i Hi. now apply flip_fields_keeps_opaque.
Qed.

Lemma opaque_fields_copied_witness :
  exists out,
    convert lp64 [Byte.x01; Byte.x02; Byte.x61; Byte.x62] (Some "big") "h2s"
      = Return out
    /\ length out = 4%nat
    /\ forall i,
         opaque_bytes [(1%nat, mkdef (KInt true) 2 0); (2%nat, mkdef KString 1 0)] !! i
           = Some true ->
         out !! i = [Byte.x01; Byte.x02; Byte.x61; Byte.x62] !! i.
Proof.
  refine (proj2 (proj2 (proj2 (opaque_fields_copied lp64
            [Byte.x01; Byte.x02; Byte.x61; Byte.x62] (Some "big")))) "h2s"
            [(1%nat, mkdef (KInt true) 2 0); (2%nat, mkdef KString 1 0)] _ _ _).
  - reflexivity.
  - repeat constructor.
  - reflexivity.
Defined.

(** The same input, evaluated: the integer is flipped, the string is not. *)
Example mixed_format_example :
  opaque_bytes [(1%nat, mkdef (KInt true) 2 0); (2%nat, mkdef KString 1 0)]
    = [false; false; true; true]
  /\ convert lp64 [Byte.x01; Byte.x02; Byte.x61; Byte.x62] (Some "big") "h2s"
     = Return [Byte.x02; Byte.x01; Byte.x61; Byte.x62].
Proof. split; reflexivity. Qed.

(** The fallback on two bytes: they stay in place, they are not swapped. *)
Example fallback_keeps_order :
  convert lp64 [Byte.x01; Byte.x02] (Some "little") "*" = Return [Byte.x01; Byte.x02]
  /\ rev [Byte.x01; Byte.x02] <> [Byte.x01; Byte.x02].
Proof. split; [reflexivity|discriminate]. Qed.

(** * Further properties *)

(** ** The format that is returned *)

Lemma valid_fixed_text (p : platform) (toks : list string)
    (xs : list (string * Z * Z)) :
  Forall2 (valid_fixed p) toks xs ->
  exists parts its,
    fixed_parts p toks parts
    /\ parts_text parts = flat_text xs
    /\ parse std_table (flat_text xs) None = Some its.
Proof.
  induction 1 as [|tok [[pattern count] width] toks xs Hv _ IH].
  - exists [], []. repeat split; constructor.
  - destruct IH as (parts & its & Hparts & Htext & Hparse).
    destruct Hv as (Hc & Hcount & Hw). simpl in Hc, Hcount, Hw.
    rewrite calcsize_std in Hw.
    destruct (parse std_table pattern None) as [ip|] eqn:Hp; [|discriminate].
    pose proof (parse_rep std_table pattern ip (Z.to_nat count) Hp) as Hrep.
    fold (Py.mul count pattern) in Hrep.
    destruct (calcsize_native_of_std p _ _ Hrep) as [n Hn].
    exists ((Py.mul count pattern, n) :: parts),
           (mjoin (replicate (Z.to_nat count) ip) ++ its).
    repeat split.
    + constructor; [|exact Hparts]. unfold fixed_part. now rewrite Hc, Hn.
    + simpl. now rewrite Htext.
    + simpl. rewrite (parse_app _ _ _ _ _ Hrep), Hparse. reflexivity.
Qed.

(** X1.  On a valid descriptor without wildcard the format is the
    concatenation, in the order of the tokens, of each pattern repeated as
    many times as its count says; with no size it is returned as it is. *)
Theorem no_wildcard_format (p : platform) (formats : list string)
    (xs : list (string * Z * Z)) (size : option Z) (expand : bool) :
  Forall2 (valid_fixed p) formats xs ->
  gen_format_string p formats size expand
    = (formats, final_check p (flat_text xs) size)
  /\ final_check p (flat_text xs) None = Return (flat_text xs).
Proof.
  intros Hv.
  destruct (valid_fixed_text p formats xs Hv) as (parts & its & Hparts & Htext & Hparse).
  split.
  - unfold gen_format_string.
    destruct (decide (formats = ["*"])) as [->|_];
      [destruct (valid_fixed_not_fallback p xs Hv)|].
    rewrite (scan_fixed p formats parts Hparts).
    cbn [truthy special_pattern scan_init fmt].
    now rewrite append_nil_l, Htext.
  - unfold final_check. now rewrite calcsize_std, Hparse.
Qed.

Lemma no_wildcard_format_witness :
  gen_format_string lp64 ["id4s:2"; "f2d"] None false
  = (["id4s:2"; "f2d"], Return "id4sid4sf2d").
Proof.
  refine (proj1 (no_wildcard_format lp64 ["id4s:2"; "f2d"]
                   [("id4s", 2, 16); ("f2d", 1, 20)] None false _)).
  constructor; [split; [reflexivity|split; [cbn; lia|reflexivity]]|].
  constructor; [split; [reflexivity|split; [cbn; lia|reflexivity]]|].
  constructor.
Defined.

(** X2.  The wildcard resolved.  On a descriptor with one wildcard token, when
    the remaining size is a multiple of the pattern's size and the format
    this gives has the supplied size in the standard sizes, the format
    returned is the fixed parts with the pattern repeated
    [remaining / chunksize] times in the wildcard's place; with [expand] the
    count is written over the wildcard character of the token. *)
Theorem wildcard_resolution (p : platform) (pre post : list string)
    (w pattern : string) (pre_parts post_parts : list (string * Z))
    (chunksize sz : Z) (expand : bool) :
  fixed_parts p pre pre_parts ->
  fixed_parts p post post_parts ->
  classify w = Return (pattern, None) ->
  pattern <> EmptyString ->
  calcsize p pattern = Some chunksize ->
  chunksize <> 0 ->
  let remaining := sz - (parts_size pre_parts + parts_size post_parts) in
  let count := remaining / chunksize in
  let f := parts_text pre_parts +:+ Py.mul count pattern
           +:+ parts_text post_parts in
  remaining mod chunksize = 0 ->
  calcsize p ("=" +:+ f) = Some sz ->
  gen_format_string p (pre ++ w :: post) (Some sz) expand
  = ((if expand then pre ++ Py.replace "*" (Py.str count) w :: post
      else pre ++ w :: post),
     Return f).
Proof.
  intros Hpre Hpost Hw Hne Hchunk Hnz remaining count f Hdiv Hsize.
  rewrite (wildcard_resolved p pre post w pattern pre_parts post_parts
             chunksize sz expand Hpre Hpost Hw Hne Hchunk Hnz Hdiv).
  fold remaining. fold count. fold f.
  now rewrite (final_check_match p f sz Hsize).
Qed.

Lemma wildcard_resolution_witness :
  gen_format_string lp64 (["i"] ++ "8s:*" :: []) (Some 20) true
  = (["i"] ++ "8s:2" :: [], Return "i8s8s").
Proof.
  apply (wildcard_resolution lp64 ["i"] [] "8s:*" "8s" [("i", 4)] [] 8 20 true).
  - repeat constructor.
  - constructor.
  - reflexivity.
  - discriminate.
  - reflexivity.
  - lia.
  - reflexivity.
  - reflexivity.
Defined.

(** ** More on the scanning loop *)

Lemma format_app_aux (n : nat) : forall a b arg ra,
  (String.length a <= n)%nat ->
  Py.format a arg = Some ra ->
  Py.format (a +:+ b) arg = option_map (String.append ra) (Py.format b arg).
Proof.
  induction n as [|n IH]; intros a b arg ra Hn H.
  - destruct a; [|simpl in Hn; lia]. inversion H; subst.
    rewrite append_nil_l. now destruct (Py.format b arg).
  - destruct a as [|c a1].
    { inversion H; subst. rewrite append_nil_l. now destruct (Py.format b arg). }
    rewrite append_cons. cbn [Py.format] in *. simpl in Hn.
    destruct (Ascii.eqb c "{").
    + destruct a1 as [|c1 a2]; [discriminate|]. rewrite append_cons. simpl in Hn.
      destruct (Ascii.eqb c1 "{").
      * destruct (Py.format a2 arg) as [r2|] eqn:H2; [|discriminate].
        inversion H; subst. rewrite (IH a2 b arg r2) by (try lia; assumption).
        now destruct (Py.format b arg).
      * destruct (Ascii.eqb c1 "0"); [|discriminate].
        destruct a2 as [|c2 a3]; [discriminate|]. rewrite append_cons. simpl in Hn.
        destruct (Ascii.eqb c2 "}"); [|discriminate].
        destruct (Py.format a3 arg) as [r3|] eqn:H3; [|discriminate].
        inversion H; subst. rewrite (IH a3 b arg r3) by (try lia; assumption).
        destruct (Py.format b arg); [|reflexivity].
        cbn [option_map]. now rewrite append_assoc.
    + destruct (Ascii.eqb c "}").
      * destruct a1 as [|c1 a2]; [discriminate|]. rewrite append_cons. simpl in Hn.
        destruct (Ascii.eqb c1 "}"); [|discriminate].
        destruct (Py.format a2 arg) as [r2|] eqn:H2; [|discriminate].
        inversion H; subst. rewrite (IH a2 b arg r2) by (try lia; assumption).
        now destruct (Py.format b arg).
      * destruct (Py.format a1 arg) as [r1|] eqn:H1; [|discriminate].
        inversion H; subst. rewrite (IH a1 b arg r1) by (try lia; assumption).
        now destruct (Py.format b arg).
Qed.

(** [str.format] works piece by piece. *)
Lemma format_app (a b arg ra : string) :
  Py.format a arg = Some ra ->
  Py.format (a +:+ b) arg = option_map (String.append ra) (Py.format b arg).
Proof. apply (format_app_aux (String.length a)). lia. Qed.

Lemma formattable_app (a b : string) :
  formattable a -> formattable b -> formattable (a +:+ b).
Proof.
  intros Ha Hb arg. destruct (Ha arg) as [ra Hra], (Hb arg) as [rb Hrb].
  rewrite (format_app a b arg ra Hra), Hrb. eexists; reflexivity.
Qed.

Lemma formattable_brace_free (s : string) : brace_free s = true -> formattable s.
Proof. intros H arg. rewrite (format_brace_free s arg H). eexists; reflexivity. Qed.

Lemma formattable_placeholder : formattable "{0}".
Proof. intros arg. eexists; reflexivity. Qed.

(** One turn of the loop, by what the token is. *)
Lemma scan_token_cases (p : platform) (st st' : scan_state) (i : nat) (tok : string) :
  scan_token p st i tok = Return st' ->
  (is_wildcard tok = false
   /\ special_pattern st' = special_pattern st
   /\ special_index st' = special_index st
   /\ exists text n, calcsize p text = Some n /\ fmt st' = fmt st +:+ text)
  \/ (is_wildcard tok = true
      /\ special_index st' = Some i
      /\ (exists pattern, special_pattern st' = Some pattern)
      /\ fmt st' = fmt st +:+ "{0}").
Proof.
  unfold scan_token, is_wildcard, classify.
  destruct (Py.split ":" tok) as [|pattern [|cnt rest]]; [discriminate| |].
  - destruct (calcsize p pattern) as [n|] eqn:Hn; [|discriminate].
    intros H; inversion H; subst; clear H. left. cbn.
    repeat split. now exists pattern, n.
  - destruct (Py.last_char cnt) as [c|]; [|discriminate].
    destruct (Ascii.eqb c "*").
    + destruct (truthy (special_pattern st)); [discriminate|].
      intros H; inversion H; subst; clear H. right. cbn.
      repeat split. now exists pattern.
    + destruct (Py.int cnt) as [count|]; [|discriminate]. cbv zeta.
      destruct (calcsize p (Py.mul count pattern)) as [n|] eqn:Hn; [|discriminate].
      intros H; inversion H; subst; clear H. left. cbn.
      repeat split. now exists (Py.mul count pattern), n.
Qed.

Lemma scan_invariant (p : platform) (all : list string) :
  forall toks pre i st st',
    all = pre ++ toks -> length pre = i ->
    scan p toks i st = Return st' ->
    index_ok all st -> formattable (fmt st) ->
    index_ok all st' /\ formattable (fmt st').
Proof.
  induction toks as [|tok toks IH]; intros pre i st st' Hall Hi Hscan Hidx Hfmt.
  - inversion Hscan; subst. now split.
  - cbn [scan] in Hscan.
    destruct (scan_token p st i tok) as [st1|e] eqn:Htok; [|discriminate].
    apply (IH (pre ++ [tok]) (S i) st1 st').
    + now rewrite <- app_assoc.
    + rewrite length_app. simpl. lia.
    + exact Hscan.
    + apply scan_token_cases in Htok as [(_ & Hp & Hx & _)|(Hw & Hx & _ & _)].
      * unfold index_ok in *. rewrite Hx. destruct (special_index st); [exact Hidx|].
        now rewrite Hp.
      * unfold index_ok. rewrite Hx. exists tok. split; [|exact Hw].
        subst all i. now rewrite list_lookup_middle.
    + apply scan_token_cases in Htok as [(_ & _ & _ & text & n & Hn & ->)|(_ & _ & _ & ->)].
      * apply formattable_app; [exact Hfmt|].
        apply formattable_brace_free. exact (calcsize_brace_free p text n Hn).
      * apply formattable_app; [exact Hfmt|apply formattable_placeholder].
Qed.

Lemma scan_init_invariant (p : platform) (formats : list string) (st : scan_state) :
  scan p formats 0 scan_init = Return st ->
  index_ok formats st /\ formattable (fmt st).
Proof.
  intros H. apply (scan_invariant p formats formats [] 0%nat scan_init st);
    try reflexivity; try assumption.
  intros arg. eexists; reflexivity.
Qed.

Lemma truthy_some (sp : option string) : truthy sp = true -> exists s, sp = Some s.
Proof. destruct sp as [s|]; [now exists s|discriminate]. Qed.

(** What the function returns and what it does to the list, in one
    statement per way out. *)
Lemma final_check_cases (p : platform) (f : string) (size : option Z) (o : outcome string) :
  final_check p f size = o ->
  o = Raise UnknownPattern
  \/ (exists sz n, size = Some sz /\ calcsize p ("=" +:+ f) = Some n
                   /\ sz <> 0 /\ sz <> n /\ o = Raise (SizeMismatch sz n))
  \/ (o = Return f /\ exists n, calcsize p ("=" +:+ f) = Some n
                     /\ forall sz, size = Some sz -> sz <> 0 -> n = sz).
Proof.
  unfold final_check. destruct (calcsize p ("=" +:+ f)) as [n|]; [|now left].
  destruct size as [sz|].
  - destruct (Z.eqb_spec sz 0) as [Hz|Hz]; cbn [negb andb].
    + intros <-. right; right. split; [reflexivity|]. exists n. split; [reflexivity|].
      intros sz' [= <-] Hnz. contradiction.
    + destruct (Z.eqb_spec sz n) as [He|He]; cbn [negb].
      * intros <-. right; right. split; [reflexivity|]. exists n. split; [reflexivity|].
        now intros sz' [= <-] _.
      * intros <-. right; left. now exists sz, n.
  - intros <-. right; right. split; [reflexivity|]. exists n. split; [reflexivity|].
    discriminate.
Qed.

Lemma scan_token_raise_readable (p : platform) (st : scan_state) (i : nat)
    (tok : string) (e : error) :
  readable tok -> scan_token p st i tok = Raise e ->
  e = UnknownPattern \/ e = MultipleWildcards.
Proof.
  intros [x Hx]. revert Hx. unfold classify, scan_token.
  destruct (Py.split ":" tok) as [|pattern [|cnt rest]]; [discriminate| |].
  - intros _. destruct (calcsize p pattern); [discriminate|].
    intros [= <-]. now left.
  - destruct (Py.last_char cnt) as [c|]; [|discriminate].
    destruct (Ascii.eqb c "*").
    + intros _. destruct (truthy (special_pattern st)); [|discriminate].
      intros [= <-]. now right.
    + destruct (Py.int cnt) as [count|]; [|discriminate]. intros _. cbv zeta.
      destruct (calcsize p (Py.mul count pattern)); [discriminate|].
      intros [= <-]. now left.
Qed.

Lemma scan_raise_readable (p : platform) (toks : list string) :
  Forall readable toks ->
  forall i st e, scan p toks i st = Raise e ->
                 e = UnknownPattern \/ e = MultipleWildcards.
Proof.
  induction 1 as [|tok toks Htok _ IH]; intros i st e H; [discriminate|].
  cbn [scan] in H. destruct (scan_token p st i tok) as [st1|e1] eqn:H1.
  - exact (IH _ _ _ H).
  - inversion H; subst. exact (scan_token_raise_readable p st i tok e Htok H1).
Qed.

(** ** More on [gen_format_string] *)

(** X3.  The list is rewritten on one path only: with [expand], and with a size.
    Without either the caller's list is left as it was, whatever the tokens
    and whatever the outcome. *)
Theorem list_kept_without_expand (p : platform) (formats : list string)
    (size : option Z) (expand : bool) :
  expand = false \/ size = None ->
  fst (gen_format_string p formats size expand) = formats.
Proof.
  intros H. unfold gen_format_string.
  repeat case_match; try reflexivity; destruct H; discriminate.
Qed.

Lemma list_kept_without_expand_witness :
  fst (gen_format_string lp64 ["i"; "4s:*"] (Some 12) false) = ["i"; "4s:*"].
Proof.
  apply (list_kept_without_expand lp64 ["i"; "4s:*"] (Some 12) false). now left.
Defined.

(** X4.  In every case the list keeps its length and every token that is not a
    wildcard token: only the wildcard's place can be rewritten. *)
Theorem only_wildcard_rewritten (p : platform) (formats : list string)
    (size : option Z) (expand : bool) :
  length (fst (gen_format_string p formats size expand)) = length formats
  /\ forall j tok,
      formats !! j = Some tok -> is_wildcard tok = false ->
      fst (gen_format_string p formats size expand) !! j = Some tok.
Proof.
  unfold gen_format_string.
  destruct (decide (formats = ["*"])) as [|_]; [now split|].
  destruct (scan p formats 0 scan_init) as [st|e] eqn:Hscan; [|now split].
  destruct (scan_init_invariant p formats st Hscan) as [Hidx _].
  destruct (truthy (special_pattern st)) eqn:Ht; [|now split].
  destruct size as [sz|]; [|now split]. cbv zeta.
  destruct (calcsize p _) as [chunksize|]; [|now split].
  destruct (chunksize =? 0); [now split|].
  destruct (negb _); [now split|].
  destruct (Py.format _ _) as [f|]; [|now split].
  destruct expand; [|now split].
  destruct (formats !! default 0%nat (special_index st)) as [w|] eqn:Hw; [|now split].
  cbn [fst]. split; [apply length_insert|].
  intros j tok Hj Hnw.
  destruct (decide (j = default 0%nat (special_index st))) as [->|Hne].
  - exfalso. unfold index_ok in Hidx.
    destruct (special_index st) as [i|]; simpl in Hj.
    + destruct Hidx as (tok' & Htok' & Hwild). congruence.
    + rewrite Hidx in Ht. discriminate.
  - rewrite list_lookup_insert_ne by congruence. exact Hj.
Qed.

(** The exceptions the function ends in on tokens with a readable count:
    the four it raises itself or gets from [struct.calcsize], and the
    division by a chunk of no byte. *)
Lemma gen_format_string_raises (p : platform) (formats : list string)
    (size : option Z) (expand : bool) (e : error) :
  Forall readable formats ->
  snd (gen_format_string p formats size expand) = Raise e ->
  e = UnknownPattern \/ e = MultipleWildcards \/ e = ZeroDivisionError
  \/ e = DivisionError \/ exists sz n, e = SizeMismatch sz n.
Proof.
  intros Hr. unfold gen_format_string.
  destruct (decide (formats = ["*"])) as [|_]; [discriminate|].
  destruct (scan p formats 0 scan_init) as [st|e0] eqn:Hscan.
  2:{ intros [= <-].
      destruct (scan_raise_readable p formats Hr _ _ _ Hscan) as [->| ->]; auto. }
  destruct (scan_init_invariant p formats st Hscan) as [Hidx Hfmt].
  assert (Hfc : forall f sz, final_check p f sz = Raise e ->
                  e = UnknownPattern \/ e = MultipleWildcards
                  \/ e = ZeroDivisionError \/ e = DivisionError
                  \/ exists sz n, e = SizeMismatch sz n).
  { intros f sz Hf.
    destruct (final_check_cases p f sz _ Hf)
      as [[= ->]|[(a & b & _ & _ & _ & _ & [= ->])|[? _]]]; [auto| |discriminate].
    right; right; right; right. now exists a, b. }
  destruct (truthy (special_pattern st)) eqn:Ht; [|apply Hfc].
  destruct size as [sz|]; [|discriminate]. cbv zeta.
  destruct (calcsize p _) as [chunksize|]; [|intros [= <-]; auto].
  destruct (chunksize =? 0); [intros [= <-]; auto|].
  destruct (negb _); [intros [= <-]; auto 6|].
  match goal with |- context [Py.format ?s ?a] => destruct (Hfmt a) as [f ->] end.
  destruct expand; [|apply Hfc].
  unfold index_ok in Hidx. destruct (special_index st) as [i|]; simpl default.
  - destruct Hidx as (tok & -> & _). apply Hfc.
  - rewrite Hidx in Ht. discriminate.
Qed.

(** X5.  On tokens with a readable count the function never ends in IndexError
    or ValueError: the substitution on line 144 and the assignment on line
    148 cannot fail.  The tokens are taken without NUL character: after a
    NUL a token can hold a brace that [struct.calcsize] of CPython 2.7 does
    not see and that line 144 stumbles on, where the loop here has stopped
    at the token. *)
Theorem no_index_or_value_error (p : platform) (formats : list string)
    (size : option Z) (expand : bool) :
  Forall readable formats ->
  Forall no_nul formats ->
  snd (gen_format_string p formats size expand) <> Raise IndexError
  /\ snd (gen_format_string p formats size expand) <> Raise ValueError.
Proof.
  intros Hr _. split; intros H;
    destruct (gen_format_string_raises p formats size expand _ Hr H)
      as [?|[?|[?|[?|(? & ? & ?)]]]]; discriminate.
Qed.

Lemma no_index_or_value_error_witness :
  snd (gen_format_string lp64 ["i"; "4s:*"] (Some 12) true) <> Raise IndexError
  /\ snd (gen_format_string lp64 ["i"; "4s:*"] (Some 12) true) <> Raise ValueError.
Proof.
  apply (no_index_or_value_error lp64 ["i"; "4s:*"] (Some 12) true).
  - repeat constructor; eexists; reflexivity.
  - repeat constructor.
Defined.

(** What the check of lines 150-154 lets through for a size that is not
    zero. *)
Lemma final_check_return_size (p : platform) (g f : string) (sz : Z) :
  final_check p g (Some sz) = Return f ->
  sz <> 0 ->
  calcsize p ("=" +:+ f) = Some sz.
Proof.
  intros Hg Hsz.
  destruct (final_check_cases p g (Some sz) _ Hg)
    as [|[(? & ? & _ & _ & _ & _ & ?)|[[= <-] (n & Hn & Hsame)]]];
    try discriminate.
  now rewrite Hn, (Hsame sz eq_refl Hsz).
Qed.

(** X6.  A format that is returned for a non-zero size has that size in the
    standard sizes, the one case apart where the descriptor is the fallback
    and the format is ["*"]. *)
Theorem returned_format_has_size (p : platform) (formats l : list string)
    (sz : Z) (expand : bool) (f : string) :
  gen_format_string p formats (Some sz) expand = (l, Return f) ->
  sz <> 0 ->
  formats <> ["*"] ->
  calcsize p ("=" +:+ f) = Some sz.
Proof.
  unfold gen_format_string. intros H Hsz Hnf.
  destruct (decide (formats = ["*"])) as [|_]; [contradiction|].
  pose proof (fun g Hg => final_check_return_size p g f sz Hg Hsz) as Hfc.
  repeat case_match; simplify_eq; eauto.
Qed.

Lemma returned_format_has_size_witness :
  calcsize lp64 ("=" +:+ "i4s4s") = Some 12.
Proof.
  apply (returned_format_has_size lp64 ["i"; "4s:*"] ["i"; "4s:2"] 12 true "i4s4s").
  - reflexivity.
  - lia.
  - discriminate.
Defined.

(** *** The wildcard without a size, and of no width *)

(** X7.  Without a size the wildcard is left for later: the format comes back
    with the placeholder at the wildcard's place and the list is not
    touched, [expand] or not; that format is not one [struct] accepts. *)
Theorem wildcard_deferred (p : platform) (pre post : list string)
    (w pattern : string) (pre_parts post_parts : list (string * Z))
    (expand : bool) :
  fixed_parts p pre pre_parts ->
  fixed_parts p post post_parts ->
  classify w = Return (pattern, None) ->
  pattern <> EmptyString ->
  let f := parts_text pre_parts +:+ "{0}" +:+ parts_text post_parts in
  gen_format_string p (pre ++ w :: post) None expand = (pre ++ w :: post, Return f)
  /\ calcsize p f = None
  /\ calcsize p ("=" +:+ f) = None.
Proof.
  intros Hpre Hpost Hw Hne f. split.
  - unfold gen_format_string.
    destruct (decide (pre ++ w :: post = ["*"])) as [Heq|_];
      [destruct (one_wildcard_not_fallback pre post w pattern Hw Heq)|].
    rewrite (scan_one_wildcard p pre post w pattern _ _ Hpre Hpost Hw).
    cbn [special_pattern fmt]. now rewrite (truthy_nonempty pattern Hne).
  - assert (Hb : brace_free f = false).
    { subst f. rewrite !brace_free_app.
      rewrite (fixed_parts_brace_free p pre pre_parts Hpre). reflexivity. }
    split.
    + destruct (calcsize p f) as [n|] eqn:Hn; [|reflexivity].
      apply calcsize_brace_free in Hn. congruence.
    + destruct (calcsize p ("=" +:+ f)) as [n|] eqn:Hn; [|reflexivity].
      apply calcsize_brace_free in Hn. rewrite brace_free_app in Hn.
      apply andb_true_iff in Hn as [_ Hn]. congruence.
Qed.

Lemma wildcard_deferred_witness :
  gen_format_string lp64 (["i"] ++ "4s:*" :: ["d"]) None true
    = (["i"] ++ "4s:*" :: ["d"], Return "i{0}d")
  /\ calcsize lp64 "i{0}d" = None
  /\ calcsize lp64 ("=" +:+ "i{0}d") = None.
Proof.
  apply (wildcard_deferred lp64 ["i"] ["d"] "4s:*" "4s" [("i", 4)] [("d", 8)] true).
  - repeat constructor.
  - repeat constructor.
  - reflexivity.
  - discriminate.
Defined.

(** X8.  A wildcard pattern that takes no byte ends the function in
    ZeroDivisionError as soon as a size is given, whatever the size: the
    division on line 137 comes before the test of the remainder. *)
Theorem zero_width_wildcard (p : platform) (pre post : list string)
    (w pattern : string) (pre_parts post_parts : list (string * Z))
    (sz : Z) (expand : bool) :
  fixed_parts p pre pre_parts ->
  fixed_parts p post post_parts ->
  classify w = Return (pattern, None) ->
  pattern <> EmptyString ->
  calcsize p pattern = Some 0 ->
  gen_format_string p (pre ++ w :: post) (Some sz) expand
  = (pre ++ w :: post, Raise ZeroDivisionError).
Proof.
  intros Hpre Hpost Hw Hne Hzero. unfold gen_format_string.
  destruct (decide (pre ++ w :: post = ["*"])) as [Heq|_];
    [destruct (one_wildcard_not_fallback pre post w pattern Hw Heq)|].
  rewrite (scan_one_wildcard p pre post w pattern _ _ Hpre Hpost Hw).
  cbn [special_pattern cumsize fmt special_index default]. unfold id.
  now rewrite (truthy_nonempty pattern Hne), Hzero.
Qed.

Lemma zero_width_wildcard_witness :
  gen_format_string lp64 (["i"] ++ "0s:*" :: []) (Some 12) false
  = (["i"] ++ "0s:*" :: [], Raise ZeroDivisionError).
Proof.
  apply (zero_width_wildcard lp64 ["i"] [] "0s:*" "0s" [("i", 4)] [] 12 false).
  - repeat constructor.
  - constructor.
  - reflexivity.
  - discriminate.
  - reflexivity.
Defined.

(** *** [int(str(n))] and the expanded token *)

Lemma is_digit_range (c : ascii) :
  Py.is_digit c = true -> (48 <= N_of_ascii c <= 57)%N.
Proof.
  unfold Py.is_digit. intros H. apply andb_true_iff in H as [H1 H2].
  apply N.leb_le in H1, H2. lia.
Qed.

Lemma is_digit_not_space (c : ascii) : Py.is_digit c = true -> Py.is_space c = false.
Proof.
  intros H. apply is_digit_range in H. unfold Py.is_space.
  apply orb_false_iff. split.
  - apply N.eqb_neq. lia.
  - apply andb_false_iff. right. apply N.leb_gt. lia.
Qed.

Lemma is_digit_not_char (c d : ascii) :
  Py.is_digit c = true -> Py.is_digit d = false -> Ascii.eqb c d = false.
Proof.
  intros Hc Hd. destruct (Ascii.eqb_spec c d) as [->|]; [congruence|reflexivity].
Qed.

Lemma pretty_N_char_digit (d : N) :
  (d < 10)%N ->
  Py.is_digit (pretty_N_char d) = true
  /\ Py.digit_val (pretty_N_char d) = N.to_nat d.
Proof.
  intros H.
  assert (d = 0 \/ d = 1 \/ d = 2 \/ d = 3 \/ d = 4 \/ d = 5 \/ d = 6
          \/ d = 7 \/ d = 8 \/ d = 9)%N as Hd by lia.
  repeat (destruct Hd as [->|Hd]; [split; reflexivity|]). subst.
  split; reflexivity.
Qed.

Lemma digits_app (a b : string) : forall acc,
  Py.digits (a +:+ b) acc =
  match Py.digits a acc with
  | Some v => Py.digits b v
  | None => None
  end.
Proof.
  induction a as [|c a IH]; intros acc; [reflexivity|].
  rewrite append_cons. simpl. destruct (Py.is_digit c); [apply IH|reflexivity].
Qed.

Lemma all_digits_app (a b : string) :
  all_digits (a +:+ b) = all_digits a && all_digits b.
Proof.
  induction a as [|c a IH]; [reflexivity|].
  rewrite append_cons. simpl. now rewrite IH, andb_assoc.
Qed.

(** The digits [pretty] writes in front of [s] for [x]: they are digits,
    there is one at least when [x] is positive, and [int] reads [x] back. *)
Lemma pretty_N_go_digits (x : N) : forall s,
  exists d k,
    pretty_N_go x s = d +:+ s
    /\ all_digits d = true
    /\ ((0 < x)%N -> d <> EmptyString)
    /\ forall acc, Py.digits d acc = Some (acc * k + Z.of_N x).
Proof.
  induction x as [x IH] using (well_founded_induction N.lt_wf_0). intros s.
  destruct (N.eq_dec x 0%N) as [->|Hx].
  - exists EmptyString, 1. rewrite pretty_N_go_0. repeat split; try reflexivity.
    + intros H. lia.
    + intros acc. simpl. f_equal. lia.
  - assert (Hpos : (0 < x)%N) by lia.
    rewrite (pretty_N_go_step x s Hpos).
    destruct (IH (x / 10)%N) with (s := String (pretty_N_char (x mod 10)) s)
      as (d & k & Hgo & Hd & _ & Hval).
    { apply N.div_lt; lia. }
    destruct (pretty_N_char_digit (x mod 10)) as [Hc Hv].
    { apply N.mod_lt. lia. }
    exists (d +:+ String (pretty_N_char (x mod 10)) EmptyString), (k * 10).
    repeat split.
    + rewrite Hgo. now rewrite append_assoc.
    + rewrite all_digits_app, Hd. simpl. now rewrite Hc.
    + intros _. destruct d; discriminate.
    + intros acc. rewrite digits_app, Hval. simpl. rewrite Hc, Hv. f_equal.
      rewrite N_nat_Z.
      pose proof (N.div_mod x 10 ltac:(lia)) as Hdm. lia.
Qed.

Lemma lstrip_no_space (s : string) : no_space s = true -> Py.lstrip s = s.
Proof.
  destruct s as [|c s]; [reflexivity|]. simpl. intros H.
  apply andb_true_iff in H as [Hc _]. apply negb_true_iff in Hc. now rewrite Hc.
Qed.

Lemma no_space_rev_app (s : string) : forall t,
  no_space s = true -> no_space t = true -> no_space (String.rev_app s t) = true.
Proof.
  induction s as [|c s IH]; intros t Hs Ht; [exact Ht|].
  simpl in *. apply andb_true_iff in Hs as [Hc Hs].
  apply IH; [exact Hs|]. simpl. now rewrite Hc, Ht.
Qed.

Lemma rev_app_rev_app (s : string) : forall t u,
  String.rev_app (String.rev_app s t) u = String.rev_app t (s +:+ u).
Proof.
  induction s as [|c s IH]; intros t u; [reflexivity|].
  simpl. rewrite IH. reflexivity.
Qed.

Lemma strip_no_space (s : string) : no_space s = true -> Py.strip s = s.
Proof.
  intros H. unfold Py.strip. rewrite (lstrip_no_space s H).
  rewrite lstrip_no_space by (now apply no_space_rev_app).
  unfold String.rev. rewrite rev_app_rev_app. simpl. apply append_nil_r.
Qed.

Lemma all_digits_no_space (d : string) : all_digits d = true -> no_space d = true.
Proof.
  induction d as [|c d IH]; [reflexivity|]. simpl. intros H.
  apply andb_true_iff in H as [Hc Hd].
  now rewrite (is_digit_not_space c Hc), (IH Hd).
Qed.

Lemma all_digits_no_char (c : ascii) (d : string) :
  Py.is_digit c = false -> all_digits d = true -> has_char c d = false.
Proof.
  intros Hc. induction d as [|x d IH]; [reflexivity|]. simpl. intros H.
  apply andb_true_iff in H as [Hx Hd].
  now rewrite (is_digit_not_char x c Hx Hc), (IH Hd).
Qed.

Lemma all_digits_last (d : string) :
  all_digits d = true -> d <> EmptyString ->
  exists c, Py.last_char d = Some c /\ Py.is_digit c = true.
Proof.
  induction d as [|x d IH]; [congruence|]. simpl. intros H _.
  apply andb_true_iff in H as [Hx Hd]. destruct d as [|y d].
  - now exists x.
  - apply IH; [exact Hd|discriminate].
Qed.

(** What [str] writes for an integer: [int] reads the integer back, and
    the text has no colon, no wildcard character, and a digit at its end. *)
Lemma str_spec (n : Z) :
  Py.int (Py.str n) = Some n
  /\ has_char ":" (Py.str n) = false
  /\ has_char "*" (Py.str n) = false
  /\ exists c, Py.last_char (Py.str n) = Some c /\ Py.is_digit c = true.
Proof.
  destruct n as [|x|x].
  - repeat split; try reflexivity; now exists "0"%char.
  - unfold Py.str, pretty, pretty_Z, pretty, pretty_positive, pretty, pretty_N.
    destruct (decide (N.pos x = 0%N)) as [|_]; [discriminate|].
    destruct (pretty_N_go_digits (N.pos x) EmptyString) as (d & k & -> & Hd & Hne & Hval).
    rewrite append_nil_r. specialize (Hne ltac:(lia)).
    repeat split.
    + unfold Py.int. rewrite (strip_no_space d (all_digits_no_space d Hd)).
      destruct d as [|c r]; [congruence|]. simpl in Hd.
      apply andb_true_iff in Hd as [Hc Hr].
      rewrite (is_digit_not_char c "-" Hc eq_refl), (is_digit_not_char c "+" Hc eq_refl).
      rewrite Hval. f_equal; lia.
    + now apply all_digits_no_char.
    + now apply all_digits_no_char.
    + now apply all_digits_last.
  - unfold Py.str, pretty, pretty_Z, pretty, pretty_positive, pretty, pretty_N.
    destruct (decide (N.pos x = 0%N)) as [|_]; [discriminate|].
    destruct (pretty_N_go_digits (N.pos x) EmptyString) as (d & k & -> & Hd & Hne & Hval).
    rewrite append_nil_r. specialize (Hne ltac:(lia)).
    change ("-" +:+ d) with (String "-" d).
    repeat split.
    + unfold Py.int. rewrite strip_no_space
        by (simpl; now rewrite (all_digits_no_space d Hd)).
      cbn [Ascii.eqb Bool.eqb]. destruct d as [|c r]; [congruence|].
      rewrite Hval. reflexivity.
    + simpl. now apply all_digits_no_char.
    + simpl. now apply all_digits_no_char.
    + destruct (all_digits_last d Hd Hne) as (c & Hc & Hdig). exists c.
      split; [|exact Hdig]. destruct d; [congruence|exact Hc].
Qed.

Lemma split_no_sep (sep : ascii) (s : string) :
  has_char sep s = false -> Py.split sep s = [s].
Proof.
  induction s as [|c s IH]; [reflexivity|]. simpl. intros H.
  apply orb_false_iff in H as [Hc Hs]. now rewrite Hc, (IH Hs).
Qed.

Lemma replace_wildcard_count (pattern t : string) :
  has_char "*" pattern = false ->
  Py.replace "*" t (pattern +:+ ":*") = pattern +:+ String ":" t.
Proof.
  induction pattern as [|c pattern IH]; intros H.
  - rewrite !append_nil_l. simpl. now rewrite append_nil_r.
  - rewrite !append_cons. simpl in *. apply orb_false_iff in H as [Hc Hp].
    now rewrite Hc, (IH Hp).
Qed.

(** The wildcard token [pattern:*] as line 103 and after read it. *)
Lemma classify_wildcard_token (pattern : string) :
  has_char ":" pattern = false ->
  classify (pattern +:+ ":*") = Return (pattern, None).
Proof.
  intros Hcolon. unfold classify.
  now rewrite (split_no_sep_cons ":" pattern "*" Hcolon).
Qed.

(** The same token after line 148. *)
Lemma classify_expanded_token (pattern : string) (count : Z) :
  has_char ":" pattern = false ->
  has_char "*" pattern = false ->
  classify (Py.replace "*" (Py.str count) (pattern +:+ ":*"))
  = Return (pattern, Some count).
Proof.
  intros Hcolon Hstar.
  rewrite (replace_wildcard_count pattern _ Hstar).
  destruct (str_spec count) as (Hint & Hc & _ & c & Hlast & Hdig).
  unfold classify.
  rewrite (split_no_sep_cons ":" pattern _ Hcolon), (split_no_sep ":" _ Hc).
  rewrite Hlast, (is_digit_not_char c "*" Hdig eq_refl), Hint. reflexivity.
Qed.

(** X9.  The token written on line 148 for the wildcard token [pattern:*] reads
    back, on line 103 and after, as this pattern with the count that was
    resolved: the expanded token is no wildcard any more. *)
Theorem expanded_token_reads_back (pattern : string) (count : Z) :
  has_char ":" pattern = false ->
  has_char "*" pattern = false ->
  classify (pattern +:+ ":*") = Return (pattern, None)
  /\ classify (Py.replace "*" (Py.str count) (pattern +:+ ":*"))
     = Return (pattern, Some count).
Proof.
  intros Hcolon Hstar. split.
  - exact (classify_wildcard_token pattern Hcolon).
  - exact (classify_expanded_token pattern count Hcolon Hstar).
Qed.

Lemma expanded_token_reads_back_witness :
  classify ("4s" +:+ ":*") = Return ("4s", None)
  /\ classify (Py.replace "*" (Py.str (-3)) ("4s" +:+ ":*")) = Return ("4s", Some (-3)).
Proof. apply (expanded_token_reads_back "4s" (-3)); reflexivity. Defined.

(** *** Compiling the expanded descriptor again *)

Lemma prefix_free_app (a b : string) :
  prefix_free (a +:+ b) = prefix_free a && prefix_free b.
Proof.
  induction a as [|c a IH]; [reflexivity|].
  rewrite append_cons. simpl. now rewrite IH, andb_assoc.
Qed.

Lemma parse_std_prefix_free (s : string) : forall num its,
  parse std_table s num = Some its -> prefix_free s = true.
Proof.
  induction s as [|c s IH]; intros num its H; [reflexivity|].
  simpl in *. apply andb_true_iff. split.
  - apply negb_true_iff. destruct (is_prefix c) eqn:Hp; [|reflexivity]. exfalso.
    unfold is_prefix in Hp.
    repeat (apply orb_true_iff in Hp as [Hp|Hp]);
      apply Ascii.eqb_eq in Hp; subst c; destruct num; discriminate.
  - destruct num as [n|].
    + destruct (Py.is_digit c); [exact (IH _ _ H)|].
      destruct (std_table c); [|discriminate].
      destruct (parse std_table s None) as [r|] eqn:Hr; [|discriminate]. exact (IH _ _ Hr).
    + destruct (Py.is_space c); [exact (IH _ _ H)|].
      destruct (Py.is_digit c); [exact (IH _ _ H)|].
      destruct (std_table c); [|discriminate].
      destruct (parse std_table s None) as [r|] eqn:Hr; [|discriminate]. exact (IH _ _ Hr).
Qed.

Lemma whichtable_prefix_free (p : platform) (s : string) :
  prefix_free s = true -> whichtable p s = (native_table p, host_endian p, s).
Proof.
  destruct s as [|c s]; [reflexivity|]. simpl. intros H.
  apply andb_true_iff in H as [Hc _]. apply negb_true_iff in Hc.
  unfold is_prefix in Hc. repeat (apply orb_false_iff in Hc as [Hc ?]).
  unfold whichtable. now repeat match goal with H : Ascii.eqb c _ = false |- _ =>
                                  rewrite H; clear H end.
Qed.

Lemma prefix_free_rep (k : nat) (s : string) :
  prefix_free (Py.rep (S k) s) = true -> prefix_free s = true.
Proof.
  cbn [Py.rep]. rewrite prefix_free_app. intros H.
  now apply andb_true_iff in H as [H _].
Qed.

(** A repetition that stands in a format the standard table accepts is
    accepted by [struct.calcsize] when the pattern is. *)
Lemma calcsize_rep_in_format (p : platform) (a b pattern : string) (count n chunk : Z) :
  calcsize p ("=" +:+ a +:+ Py.mul count pattern +:+ b) = Some n ->
  calcsize p pattern = Some chunk ->
  is_Some (calcsize p (Py.mul count pattern)).
Proof.
  intros Hf Hpat. unfold Py.mul in *.
  destruct (Z.to_nat count) as [|k]; [eexists; reflexivity|].
  rewrite calcsize_std in Hf.
  destruct (parse std_table _ None) as [its|] eqn:Hparse; [|discriminate].
  apply parse_std_prefix_free in Hparse. rewrite !prefix_free_app in Hparse.
  apply andb_true_iff in Hparse as [_ Hparse].
  apply andb_true_iff in Hparse as [Hrep _].
  pose proof (prefix_free_rep k pattern Hrep) as Hp.
  unfold calcsize in *. rewrite (whichtable_prefix_free p _ Hrep).
  rewrite (whichtable_prefix_free p _ Hp) in Hpat.
  destruct (parse (native_table p) pattern None) as [ip|] eqn:Hip; [|discriminate].
  rewrite (parse_rep (native_table p) pattern ip (S k) Hip). eexists; reflexivity.
Qed.

Lemma parts_text_app (a b : list (string * Z)) :
  parts_text (a ++ b) = parts_text a +:+ parts_text b.
Proof.
  induction a as [|x a IH]; [reflexivity|].
  simpl. now rewrite IH, append_assoc.
Qed.

Lemma fixed_part_not_wildcard (p : platform) (tok : string) (part : string * Z) :
  fixed_part p tok = Some part -> is_wildcard tok = false.
Proof.
  unfold fixed_part, is_wildcard.
  destruct (classify tok) as [[pattern [count|]]|]; try discriminate. reflexivity.
Qed.

Lemma fixed_parts_no_wildcard (p : platform) (toks : list string)
    (parts : list (string * Z)) :
  fixed_parts p toks parts -> wildcards toks = O.
Proof.
  induction 1 as [|tok part toks parts Htok _ IH]; [reflexivity|].
  simpl. now rewrite (fixed_part_not_wildcard p tok part Htok), IH.
Qed.

Lemma final_check_return (p : platform) (g f : string) (size : option Z) :
  final_check p g size = Return f -> f = g.
Proof.
  unfold final_check. destruct (calcsize p _); [|discriminate].
  destruct size as [sz|]; [destruct (_ && _); [discriminate|]|]; now intros [= <-].
Qed.

(** What a returned compilation of a descriptor with one wildcard token
    went through. *)
Lemma wildcard_compile_inv (p : platform) (pre post : list string)
    (w pattern : string) (pre_parts post_parts : list (string * Z))
    (sz : Z) (expand : bool) (l : list string) (f : string) :
  fixed_parts p pre pre_parts ->
  fixed_parts p post post_parts ->
  classify w = Return (pattern, None) ->
  pattern <> EmptyString ->
  gen_format_string p (pre ++ w :: post) (Some sz) expand = (l, Return f) ->
  exists chunksize count,
    calcsize p pattern = Some chunksize
    /\ count = (sz - (parts_size pre_parts + parts_size post_parts)) / chunksize
    /\ l = (if expand then pre ++ Py.replace "*" (Py.str count) w :: post
            else pre ++ w :: post)
    /\ f = parts_text pre_parts +:+ Py.mul count pattern +:+ parts_text post_parts
    /\ final_check p f (Some sz) = Return f.
Proof.
  intros Hpre Hpost Hw Hne H. pose proof H as H0. unfold gen_format_string in H0.
  destruct (decide (pre ++ w :: post = ["*"])) as [Heq|_];
    [destruct (one_wildcard_not_fallback pre post w pattern Hw Heq)|].
  rewrite (scan_one_wildcard p pre post w pattern _ _ Hpre Hpost Hw) in H0.
  cbn [special_pattern cumsize fmt special_index default] in H0. unfold id in H0.
  rewrite (truthy_nonempty pattern Hne) in H0.
  destruct (calcsize p pattern) as [chunksize|] eqn:Hchunk; [|discriminate].
  destruct (Z.eqb_spec chunksize 0) as [|Hnz]; [discriminate|].
  destruct (Z.eqb_spec ((sz - (parts_size pre_parts + parts_size post_parts))
                          mod chunksize) 0) as [Hdiv|]; [|discriminate].
  clear H0.
  rewrite (wildcard_resolved p pre post w pattern pre_parts post_parts chunksize
             sz expand Hpre Hpost Hw Hne Hchunk Hnz Hdiv) in H.
  inversion H as [[Hl Hf]]. pose proof (final_check_return _ _ _ _ Hf) as ->.
  eexists chunksize, _. repeat split; try reflexivity; exact Hf.
Qed.

(** X10.  Expansion is stable: when the descriptor with the wildcard token
    [pattern:*] has been compiled with [expand] for a size, the list it
    leaves has no wildcard token, and compiling this list again for the same
    size gives the same format and changes nothing. *)
Theorem expansion_is_stable (p : platform) (pre post : list string)
    (pattern : string) (pre_parts post_parts : list (string * Z))
    (sz : Z) (l : list string) (f : string) (expand' : bool) :
  fixed_parts p pre pre_parts ->
  fixed_parts p post post_parts ->
  pattern <> EmptyString ->
  has_char ":" pattern = false ->
  has_char "*" pattern = false ->
  gen_format_string p (pre ++ (pattern +:+ ":*") :: post) (Some sz) true
    = (l, Return f) ->
  wildcards l = O
  /\ gen_format_string p l (Some sz) expand' = (l, Return f).
Proof.
  intros Hpre Hpost Hne Hcolon Hstar H.
  pose proof (classify_wildcard_token pattern Hcolon) as Hw.
  destruct (wildcard_compile_inv p pre post _ pattern pre_parts post_parts sz true
              l f Hpre Hpost Hw Hne H)
    as (chunksize & count & Hchunk & _ & -> & Hf & Hcheck).
  pose proof (classify_expanded_token pattern count Hcolon Hstar) as Hw'.
  set (w' := Py.replace "*" (Py.str count) (pattern +:+ ":*")) in *.
  destruct (final_check_cases p f (Some sz) _ Hcheck)
    as [|[(? & ? & _ & _ & _ & _ & ?)|[_ (n & Hn & _)]]]; try discriminate.
  rewrite Hf in Hn.
  destruct (calcsize_rep_in_format p _ _ pattern count n chunksize Hn Hchunk)
    as [m Hm].
  assert (Hfix : fixed_part p w' = Some (Py.mul count pattern, m))
    by (unfold fixed_part; now rewrite Hw', Hm).
  assert (Hall : fixed_parts p (pre ++ w' :: post)
                   (pre_parts ++ (Py.mul count pattern, m) :: post_parts)).
  { apply Forall2_app; [exact Hpre|]. constructor; [exact Hfix|exact Hpost]. }
  split; [exact (fixed_parts_no_wildcard p _ _ Hall)|].
  unfold gen_format_string.
  destruct (decide (pre ++ w' :: post = ["*"])) as [Heq|_].
  { exfalso. assert (w' = "*") as Hstar'.
    { destruct pre as [|x pre]; [now inversion Heq|].
      inversion Heq as [[Hx Hnil]]. now destruct pre. }
    rewrite Hstar' in Hw'. inversion Hw'; subst. discriminate. }
  rewrite (scan_fixed p _ _ Hall). cbn [truthy special_pattern scan_init fmt].
  rewrite append_nil_l, parts_text_app. cbn [parts_text foldr fst].
  fold (parts_text post_parts). rewrite <- Hf. now rewrite Hcheck.
Qed.

Lemma expansion_is_stable_witness :
  wildcards ["i"; "4s:2"] = O
  /\ gen_format_string lp64 ["i"; "4s:2"] (Some 12) true = (["i"; "4s:2"], Return "i4s4s").
Proof.
  apply (expansion_is_stable lp64 ["i"] [] "4s" [("i", 4)] [] 12 ["i"; "4s:2"]
           "i4s4s" true).
  - repeat constructor.
  - constructor.
  - discriminate.
  - reflexivity.
  - reflexivity.
  - reflexivity.
Defined.

(** ** More on [convert] *)

Lemma exact_row_unaligned (e : formatdef) : exact_row e = true -> falign e = O.
Proof.
  unfold exact_row. intros H. apply andb_true_iff in H as [H _].
  now apply Nat.eqb_eq in H.
Qed.

Lemma all_exact_unaligned (its : list item) : all_exact its -> unaligned its.
Proof.
  intros [H _]. eapply Forall_impl; [exact H|].
  intros [n e]. apply exact_row_unaligned.
Qed.

Lemma length_put_uint (en : endian) (n : nat) (z : Z) : length (put_uint en n z) = n.
Proof. destruct en; simpl; rewrite ?length_rev; apply length_le_split. Qed.

(** What [unpack] read from a field, [pack] takes back, under either order. *)
Lemma pack_unpack_one_some (en en' : endian) (e : formatdef) (bs : list byte) :
  exact_row e = true ->
  fkind e <> KPad -> fkind e <> KString -> fkind e <> KPascal ->
  length bs = fsize e ->
  exists out, pack_one en' e (unpack_one en e bs) = Some out
              /\ length out = fsize e.
Proof.
  unfold exact_row. intros Hrow Hpad Hstr Hpas Hlen.
  apply andb_true_iff in Hrow as [_ Hrow].
  unfold unpack_one, pack_one.
  destruct (fkind e) as [| | | | |sg| |] eqn:Hk; try congruence; try discriminate.
  - apply Nat.eqb_eq in Hrow. rewrite Hrow in Hlen.
    destruct bs as [|b [|? ?]]; try discriminate. exists [b]. now rewrite Hrow.
  - exists (le_split (fsize e) (if truth (VBool (negb (le_combine bs =? 0))) then 1 else 0)).
    split; [reflexivity|apply length_le_split].
  - apply Nat.leb_le in Hrow.
    pose proof (get_uint_bound en bs) as Hb. rewrite Hlen in Hb.
    set (n := fsize e) in *. set (u := get_uint en bs) in *.
    assert (Hpow : 2 ^ (8 * Z.of_nat n) = 2 * 2 ^ (8 * Z.of_nat n - 1)).
    { rewrite <- Z.pow_succ_r by lia. f_equal. lia. }
    unfold pack_int. destruct sg.
    + set (half := 2 ^ (8 * Z.of_nat n - 1)) in *.
      destruct (Z.ltb_spec u half) as [Hlt|Hge].
      * replace ((- half <=? u) && (u <? half))%bool with true
          by (symmetry; apply andb_true_iff; split; [apply Z.leb_le|apply Z.ltb_lt]; lia).
        eexists; split; [reflexivity|apply length_put_uint].
      * replace ((- half <=? u - 2 * half) && (u - 2 * half <? half))%bool with true
          by (symmetry; apply andb_true_iff; split; [apply Z.leb_le|apply Z.ltb_lt]; lia).
        eexists; split; [reflexivity|apply length_put_uint].
    + replace ((0 <=? u) && (u <? 2 ^ (8 * Z.of_nat n)))%bool with true
        by (symmetry; apply andb_true_iff; split; [apply Z.leb_le|apply Z.ltb_lt]; lia).
      eexists; split; [reflexivity|apply length_put_uint].
Qed.

Lemma pack_rep_some (en en' : endian) (e : formatdef) (rest : list value) :
  exact_row e = true ->
  fkind e <> KPad -> fkind e <> KString -> fkind e <> KPascal ->
  forall (n : nat) (field : list byte),
    length field = (n * fsize e)%nat ->
    exists out,
      pack_rep en' e n (map (unpack_one en e) (chunks (fsize e) n field) ++ rest)
      = Some (out, rest)
      /\ length out = (n * fsize e)%nat.
Proof.
  intros Hrow Hpad Hstr Hpas. induction n as [|n IH]; intros field Hlen; simpl.
  - now exists [].
  - destruct (pack_unpack_one_some en en' e (take (fsize e) field))
      as (b & -> & Hb); try assumption.
    { rewrite length_take. lia. }
    destruct (IH (drop (fsize e) field)) as (out & -> & Hout).
    { rewrite length_drop. lia. }
    exists (b ++ out). split; [reflexivity|]. rewrite length_app. lia.
Qed.

Lemma length_pack_pascal (n : nat) (s : list byte) : length (pack_pascal n s) = n.
Proof.
  destruct n as [|m]; [reflexivity|]. simpl. f_equal.
  rewrite length_take, length_app. unfold zeros. rewrite repeat_length. lia.
Qed.

(** [pack] goes through on what [unpack] read, and writes as many bytes. *)
Lemma pack_unpack_items_some (en en' : endian) (its : list item) :
  Forall (fun it => exact_row (snd it) = true) its ->
  forall (data : list byte) (off : nat),
    length data = flat_len its ->
    exists out,
      pack_items en' its (unpack_items en its data off) off = Some out
      /\ length out = length data.
Proof.
  induction its as [|[n e] r IH]; intros Hall data off Hlen; simpl in *.
  - exists []. split; [reflexivity|]. simpl. lia.
  - inversion Hall as [|? ? Hrow Hr]; subst. simpl in Hrow.
    rewrite (padding_unaligned off e (exact_row_unaligned e Hrow)), drop_0, Nat.add_0_r.
    set (len := (n * fsize e)%nat) in *.
    assert (Hrest : length (drop len data) = flat_len r)
      by (rewrite length_drop; lia).
    assert (Hfield : length (take len data) = len)
      by (rewrite length_take; lia).
    destruct (IH Hr (drop len data) (off + len)%nat Hrest) as (out & Hout & Hlout).
    assert (Hone : forall k, fkind e = k ->
                   match k with KPad | KChar | KString | KPascal | KBool => fsize e = 1%nat
                   | _ => True end).
    { intros k Hk. unfold exact_row in Hrow. rewrite Hk in Hrow.
      apply andb_true_iff in Hrow as [_ Hrow].
      destruct k; try exact I; now apply Nat.eqb_eq in Hrow. }
    destruct (fkind e) eqn:Hk.
    + (* x *)
      cbn [app]. rewrite Hout. eexists; split; [reflexivity|].
      simpl. rewrite length_app, Hlout, length_drop. unfold zeros.
      rewrite repeat_length. lia.
    + (* c *)
      destruct (pack_rep_some en en' e (unpack_items en r (drop len data) (off + len))
                  Hrow ltac:(congruence) ltac:(congruence) ltac:(congruence)
                  n (take len data) Hfield) as (b & -> & Hb).
      rewrite Hout. eexists; split; [reflexivity|].
      simpl. rewrite length_app, Hlout, Hb, length_drop. lia.
    + (* s *)
      cbn [app]. rewrite Hout. eexists; split; [reflexivity|].
      pose proof (Hone _ eq_refl) as Hs. simpl in Hs. simpl.
      rewrite length_app, length_take, length_app, Hlout, Hfield, length_drop.
      unfold zeros. rewrite repeat_length. subst len. rewrite Hs in *. lia.
    + (* p *)
      cbn [app]. rewrite Hout. eexists; split; [reflexivity|].
      pose proof (Hone _ eq_refl) as Hs. simpl in Hs. simpl.
      rewrite length_app, length_pack_pascal, Hlout, length_drop.
      subst len. rewrite Hs in *. lia.
    + (* ? *)
      destruct (pack_rep_some en en' e (unpack_items en r (drop len data) (off + len))
                  Hrow ltac:(congruence) ltac:(congruence) ltac:(congruence)
                  n (take len data) Hfield) as (b & -> & Hb).
      rewrite Hout. eexists; split; [reflexivity|].
      simpl. rewrite length_app, Hlout, Hb, length_drop. lia.
    + (* integers *)
      destruct (pack_rep_some en en' e (unpack_items en r (drop len data) (off + len))
                  Hrow ltac:(congruence) ltac:(congruence) ltac:(congruence)
                  n (take len data) Hfield) as (b & -> & Hb).
      rewrite Hout. eexists; split; [reflexivity|].
      simpl. rewrite length_app, Hlout, Hb, length_drop. lia.
    + exfalso. unfold exact_row in Hrow. rewrite Hk in Hrow.
      apply andb_true_iff in Hrow as [_ Hrow]. discriminate.
    + exfalso. unfold exact_row in Hrow. rewrite Hk in Hrow.
      apply andb_true_iff in Hrow as [_ Hrow]. discriminate.
Qed.

Lemma convert_body_eq (p : platform) (stream : list byte)
    (byte_order : option string) (fmt : string) :
  fmt <> "*" ->
  convert p stream byte_order fmt =
  (let '(fmt_in, fmt_out) := fmt_in_out (default (sys_byteorder p) byte_order) fmt in
   match unpack p fmt_in stream with
   | inl e => Raise (of_struct_error e)
   | inr data =>
       match pack p fmt_out data with
       | inl e => Raise (of_struct_error e)
       | inr out => Return out
       end
   end).
Proof.
  intros H. unfold convert. destruct (String.eqb_spec fmt "*"); [contradiction|reflexivity].
Qed.

Lemma parse_not_star (fmt : string) (its : list item) :
  parse std_table fmt None = Some its -> fmt <> "*".
Proof. intros H ->. rewrite parse_star in H by reflexivity. discriminate. Qed.

(** X11.  Once the format is accepted and has the size of the input, a format
    without float fields and without a Pascal field of no byte is
    converted: [convert] returns, and what it returns has the length of the
    input. *)
Theorem convert_keeps_length (p : platform) (stream : list byte)
    (byte_order : option string) (fmt : string) (its : list item) :
  parse std_table fmt None = Some its ->
  all_exact its ->
  Z.of_nat (length stream) = items_size its 0 ->
  exists out,
    convert p stream byte_order fmt = Return out
    /\ length out = length stream.
Proof.
  intros Hparse Hex Hlen.
  assert (Hflat : length stream = flat_len its).
  { rewrite items_size_unaligned in Hlen by now apply all_exact_unaligned. lia. }
  rewrite (convert_body_eq p stream byte_order fmt (parse_not_star fmt its Hparse)).
  destruct Hex as [Hrows Hnp].
  rewrite fmt_in_out_eq. destruct (String.eqb _ "little").
  - rewrite unpack_tag_big, Hparse, Hlen, Z.eqb_refl, Hnp, pack_tag_little, Hparse.
    destruct (pack_unpack_items_some Big Little its Hrows stream 0%nat Hflat)
      as (out & -> & Hout). now exists out.
  - rewrite unpack_tag_little, Hparse, Hlen, Z.eqb_refl, Hnp, pack_tag_big, Hparse.
    destruct (pack_unpack_items_some Little Big its Hrows stream 0%nat Hflat)
      as (out & -> & Hout). now exists out.
Qed.

Lemma convert_keeps_length_witness :
  exists out,
    convert lp64 [Byte.x05; Byte.x02; Byte.x03; Byte.x61; Byte.x62] (Some "big") "x?3p"
      = Return out
    /\ length out = 5%nat.
Proof.
  apply (convert_keeps_length lp64 [Byte.x05; Byte.x02; Byte.x03; Byte.x61; Byte.x62]
           (Some "big") "x?3p"
           [(1%nat, mkdef KPad 1 0); (1%nat, mkdef KBool 1 0); (3%nat, mkdef KPascal 1 0)]).
  - reflexivity.
  - split; [repeat constructor|reflexivity].
  - reflexivity.
Defined.

(** The field of no byte: [unpack] ends in SystemError, for every input. *)
Example convert_empty_pascal :
  convert lp64 [] (Some "big") "0p" = Raise SystemError.
Proof. reflexivity. Qed.

(** X12.  A buffer that has not the size of the format is refused with the
    length error, whatever the fields and the order: nothing is packed. *)
Theorem convert_size_mismatch (p : platform) (stream : list byte)
    (byte_order : option string) (fmt : string) (its : list item) :
  parse std_table fmt None = Some its ->
  Z.of_nat (length stream) <> items_size its 0 ->
  convert p stream byte_order fmt = Raise LayoutSizeMismatch.
Proof.
  intros Hparse Hlen.
  rewrite (convert_body_eq p stream byte_order fmt (parse_not_star fmt its Hparse)).
  rewrite fmt_in_out_eq.
  destruct (String.eqb _ "little");
    rewrite ?unpack_tag_big, ?unpack_tag_little, Hparse;
    destruct (Z.eqb_spec (Z.of_nat (length stream)) (items_size its 0));
    try contradiction; reflexivity.
Qed.

Lemma convert_size_mismatch_witness :
  convert lp64 [Byte.x01; Byte.x02; Byte.x03] (Some "little") "i"
  = Raise LayoutSizeMismatch.
Proof.
  apply (convert_size_mismatch lp64 [Byte.x01; Byte.x02; Byte.x03] (Some "little")
           "i" [(1%nat, mkdef (KInt true) 4 0)]).
  - reflexivity.
  - cbn. lia.
Defined.

(** X13.  A format that holds a byte-order character of its own, at its head
    or further on, is refused, whatever the input and the order: [convert]
    puts its own character first, and [struct] takes such a character at
    the first place only.  The format is taken without NUL character, at
    which CPython 2.7 would stop reading it. *)
Theorem convert_refuses_format (p : platform) (stream : list byte)
    (byte_order : option string) (fmt : string) :
  no_nul fmt ->
  prefix_free fmt = false ->
  convert p stream byte_order fmt = Raise UnknownPattern.
Proof.
  intros _ H.
  assert (Hstar : fmt <> "*") by (intros ->; discriminate).
  assert (Hparse : parse std_table fmt None = None).
  { destruct (parse std_table fmt None) as [its|] eqn:Hp; [|reflexivity].
    apply parse_std_prefix_free in Hp. congruence. }
  rewrite (convert_body_eq p stream byte_order fmt Hstar), fmt_in_out_eq.
  destruct (String.eqb _ "little");
    now rewrite ?unpack_tag_big, ?unpack_tag_little, Hparse.
Qed.

Lemma convert_refuses_format_witness :
  convert lp64 [Byte.x01; Byte.x02; Byte.x03; Byte.x04] (Some "little") "<i"
  = Raise UnknownPattern.
Proof.
  apply (convert_refuses_format lp64 _ (Some "little") "<i"); reflexivity.
Defined.

Lemma get_uint_other_rev (en : endian) (bs : list byte) :
  get_uint (other en) (rev bs) = get_uint en bs.
Proof. destruct en; simpl; [now rewrite rev_involutive|reflexivity]. Qed.

Lemma unpack_one_flip (en : endian) (e : formatdef) (bs : list byte) :
  plain e = true ->
  unpack_one (other en) e (flip_one e bs) = unpack_one en e bs.
Proof.
  unfold plain, unpack_one, flip_one. intros H.
  apply andb_true_iff in H as [_ H].
  destruct (fkind e) as [| | | | |sg| |]; try discriminate; try reflexivity.
  rewrite get_uint_other_rev. reflexivity.
Qed.

(** Read under the other order, the flipped buffer gives the values the
    buffer gives under this one. *)
Lemma unpack_items_flip (en : endian) (its : list item) :
  all_plain its ->
  forall (data : list byte) (off : nat),
    length data = flat_len its ->
    unpack_items (other en) its (flip_fields its data) off
    = unpack_items en its data off.
Proof.
  induction its as [|[n e] r IH]; intros Hall data off Hlen; simpl in *.
  - reflexivity.
  - inversion Hall as [|? ? Hp Hr]; subst. simpl in Hp.
    assert (Ha : falign e = O).
    { unfold plain in Hp. apply andb_true_iff in Hp as [Hp _].
      now apply Nat.eqb_eq in Hp. }
    rewrite (padding_unaligned off e Ha), !drop_0, Nat.add_0_r.
    set (len := (n * fsize e)%nat) in *.
    assert (Hfield : len = length (take len data)) by (rewrite length_take; lia).
    assert (Hrest : length (drop len data) = flat_len r) by (rewrite length_drop; lia).
    assert (Hflip : len = length (mjoin (map (@rev byte) (chunks (fsize e) n (take len data))))).
    { rewrite length_flip_chunks; [exact Hfield|]. now rewrite <- Hfield. }
    destruct (chunks_length (fsize e) n (take len data)) as [Hn Hch];
      [now rewrite <- Hfield|].
    destruct (fkind e) eqn:Hk;
      try (exfalso; unfold plain in Hp; rewrite Hk in Hp;
           apply andb_true_iff in Hp as [_ Hp]; discriminate);
      rewrite take_app_length', drop_app_length' by assumption;
      rewrite (IH Hr _ _ Hrest); f_equal.
    + (* c *)
      apply map_ext. intros bs. unfold unpack_one. now rewrite Hk.
    + (* integers *)
      rewrite <- Hn at 1. rewrite <- (length_map (@rev byte)).
      rewrite chunks_of_join.
      * rewrite map_map. apply map_ext. intros bs.
        pose proof (unpack_one_flip en e bs Hp) as Hx.
        unfold flip_one in Hx. now rewrite Hk in Hx.
      * apply Forall_map. eapply Forall_impl; [exact Hch|].
        intros c Hc. simpl. now rewrite length_rev.
Qed.

(** X14.  The values are kept: what the output holds, read under the order
    converted to, is what the input holds, read under the order converted
    from.  Only the layout of the bytes changes. *)
Theorem convert_preserves_values (p : platform) (stream : list byte)
    (byte_order : option string) (fmt : string) (its : list item) :
  parse std_table fmt None = Some its ->
  all_plain its ->
  Z.of_nat (length stream) = items_size its 0 ->
  let '(fmt_in, fmt_out) := fmt_in_out (default (sys_byteorder p) byte_order) fmt in
  exists out values,
    convert p stream byte_order fmt = Return out
    /\ unpack p fmt_in stream = inr values
    /\ unpack p fmt_out out = inr values.
Proof.
  intros Hparse Hplain Hlen.
  assert (Hflat : length stream = flat_len its).
  { rewrite items_size_unaligned in Hlen by now apply all_plain_unaligned. lia. }
  assert (Hlen' : Z.of_nat (length (flip_fields its stream)) = items_size its 0)
    by now rewrite length_flip_fields.
  rewrite fmt_in_out_eq. destruct (String.eqb _ "little").
  - exists (flip_fields its stream), (unpack_items Big its stream 0).
    split; [now apply convert_plain|].
    rewrite unpack_tag_big, unpack_tag_little, Hparse, Hlen, Hlen', Z.eqb_refl.
    rewrite (all_plain_no_empty_pascal its Hplain).
    split; [reflexivity|]. f_equal.
    exact (unpack_items_flip Big its Hplain stream 0%nat Hflat).
  - exists (flip_fields its stream), (unpack_items Little its stream 0).
    split; [now apply convert_plain|].
    rewrite unpack_tag_big, unpack_tag_little, Hparse, Hlen, Hlen', Z.eqb_refl.
    rewrite (all_plain_no_empty_pascal its Hplain).
    split; [reflexivity|]. f_equal.
    exact (unpack_items_flip Little its Hplain stream 0%nat Hflat).
Qed.

Lemma convert_preserves_values_witness :
  exists out values,
    convert lp64 [Byte.x00; Byte.x00; Byte.x00; Byte.x01;
                  Byte.x00; Byte.x00; Byte.x00; Byte.x02] (Some "little") "2i"
      = Return out
    /\ unpack lp64 ">2i" [Byte.x00; Byte.x00; Byte.x00; Byte.x01;
                          Byte.x00; Byte.x00; Byte.x00; Byte.x02] = inr values
    /\ unpack lp64 "<2i" out = inr values.
Proof.
  apply (convert_preserves_values lp64
           [Byte.x00; Byte.x00; Byte.x00; Byte.x01;
            Byte.x00; Byte.x00; Byte.x00; Byte.x02]
           (Some "little") "2i" [(2%nat, mkdef (KInt true) 4 0)]).
  - reflexivity.
  - repeat constructor.
  - reflexivity.
Defined.

(** X15.  On a format of integer, char and string fields the result does not
    depend on the order asked for, nor on the machine: [byte_order] and the
    default taken from the platform change nothing in what is written. *)
Theorem convert_order_irrelevant (p p' : platform) (stream : list byte)
    (byte_order byte_order' : option string) (fmt : string) (its : list item) :
  parse std_table fmt None = Some its ->
  all_plain its ->
  Z.of_nat (length stream) = items_size its 0 ->
  convert p stream byte_order fmt = convert p' stream byte_order' fmt.
Proof.
  intros Hparse Hplain Hlen.
  now rewrite (convert_plain p stream byte_order fmt its),
              (convert_plain p' stream byte_order' fmt its).
Qed.

Lemma convert_order_irrelevant_witness :
  convert lp64 [Byte.x01; Byte.x02] (Some "little") "h"
  = convert lp64 [Byte.x01; Byte.x02] (Some "big") "h".
Proof.
  apply (convert_order_irrelevant lp64 lp64 [Byte.x01; Byte.x02]
           (Some "little") (Some "big") "h" [(1%nat, mkdef (KInt true) 2 0)]).
  - reflexivity.
  - repeat constructor.
  - reflexivity.
Defined.

(** ** [main] *)

(** X16.  The format that comes back for the size of a file that is not empty
    fits the file: [convert] refuses it neither for its characters nor for
    its length. *)
Theorem compiled_format_fits (p : platform) (formats l : list string)
    (stream : list byte) (byte_order : option string) (expand : bool) (f : string) :
  stream <> [] ->
  gen_format_string p formats (Some (Z.of_nat (length stream))) expand = (l, Return f) ->
  convert p stream byte_order f <> Raise UnknownPattern
  /\ convert p stream byte_order f <> Raise LayoutSizeMismatch.
Proof.
  intros Hne H.
  destruct (decide (formats = ["*"])) as [->|Hnf].
  - inversion H; subst. rewrite convert_fallback. split; discriminate.
  - assert (Hsz : Z.of_nat (length stream) <> 0) by (destruct stream; [congruence|simpl; lia]).
    assert (Hsize : calcsize p ("=" +:+ f) = Some (Z.of_nat (length stream))).
    { pose proof (fun g Hg => final_check_return_size p g f _ Hg Hsz) as Hfc.
      unfold gen_format_string in H.
      destruct (decide (formats = ["*"])) as [|_]; [contradiction|].
      repeat case_match; simplify_eq; eauto. }
    rewrite calcsize_std in Hsize.
    destruct (parse std_table f None) as [its|] eqn:Hparse; [|discriminate].
    inversion Hsize as [Hlen].
    rewrite (convert_body_eq p stream byte_order f (parse_not_star f its Hparse)).
    rewrite fmt_in_out_eq.
    destruct (String.eqb _ "little");
      rewrite ?unpack_tag_big, ?unpack_tag_little, Hparse, Hlen, Z.eqb_refl;
      (destruct (empty_pascal its); [split; discriminate|]);
      rewrite ?pack_tag_big, ?pack_tag_little, Hparse;
      destruct (pack_items _ its _ 0); split; discriminate.
Qed.

Lemma compiled_format_fits_witness :
  convert lp64 [Byte.x01; Byte.x02; Byte.x03; Byte.x04] (Some "big") "hh"
    <> Raise UnknownPattern
  /\ convert lp64 [Byte.x01; Byte.x02; Byte.x03; Byte.x04] (Some "big") "hh"
    <> Raise LayoutSizeMismatch.
Proof.
  apply (compiled_format_fits lp64 ["h:*"] ["h:*"]
           [Byte.x01; Byte.x02; Byte.x03; Byte.x04] (Some "big") false "hh").
  - discriminate.
  - reflexivity.
Defined.

(** X17.  With the fallback descriptor, the one [main] takes when no format is
    given and no configuration file can be read, the file is copied as it
    is: the size, the order asked for and [expand] change nothing, and no
    byte is moved. *)
Theorem main_fallback_copies (p : platform) (stream : list byte)
    (byte_order : option string) (expand : bool) :
  main_convert p ["*"] stream byte_order expand = (["*"], Converted stream).
Proof.
  unfold main_convert, gen_format_string.
  destruct (decide (["*"] = ["*"])) as [_|Hne]; [|contradiction].
  now rewrite convert_fallback.
Qed.

(** On an empty source the length error is reachable: the size 0 skips
    the check of [gen_format_string]. *)
Example main_convert_empty_source :
  main_convert lp64 ["i"] [] (Some "big") false
  = (["i"], ParserError LayoutSizeMismatch).
Proof. reflexivity. Qed.

(** X18.  The division by a wildcard pattern of no byte is not caught: the
    handler on line 346 takes [struct.error] only, so the descriptor that
    ends [gen_format_string] in ZeroDivisionError ends [main] with this
    exception, whatever the file, the order and [expand]; nothing is
    converted and the list is left as it was. *)
Theorem main_convert_uncaught (p : platform) (pre post : list string)
    (w pattern : string) (pre_parts post_parts : list (string * Z))
    (stream : list byte) (byte_order : option string) (expand : bool) :
  fixed_parts p pre pre_parts ->
  fixed_parts p post post_parts ->
  classify w = Return (pattern, None) ->
  pattern <> EmptyString ->
  calcsize p pattern = Some 0 ->
  main_convert p (pre ++ w :: post) stream byte_order expand
  = (pre ++ w :: post, Uncaught ZeroDivisionError).
Proof.
  intros Hpre Hpost Hw Hne Hzero. unfold main_convert, gen_format_string.
  destruct (decide (pre ++ w :: post = ["*"])) as [Heq|_];
    [destruct (one_wildcard_not_fallback pre post w pattern Hw Heq)|].
  rewrite (scan_one_wildcard p pre post w pattern _ _ Hpre Hpost Hw).
  cbn [special_pattern cumsize fmt special_index default]. unfold id.
  now rewrite (truthy_nonempty pattern Hne), Hzero.
Qed.

Lemma main_convert_uncaught_witness :
  main_convert lp64 (["i"] ++ "0s:*" :: [])
    [Byte.x01; Byte.x02; Byte.x03; Byte.x04] None false
  = (["i"] ++ "0s:*" :: [], Uncaught ZeroDivisionError).
Proof.
  apply (main_convert_uncaught lp64 ["i"] [] "0s:*" "0s" [("i", 4)] []).
  - repeat constructor.
  - constructor.
  - reflexivity.
  - discriminate.
  - reflexivity.
Defined.

(** Another exception that no handler of [main] takes: the SystemError of
    [unpack] on a Pascal field of no byte. *)
Example main_convert_empty_pascal :
  main_convert lp64 ["i0p"] [Byte.x01; Byte.x02; Byte.x03; Byte.x04] None false
  = (["i0p"], Uncaught SystemError).
Proof. reflexivity. Qed.

(** X19.  The descriptor is written back on [-d] only: the list that comes back
    from [gen_format_string] is the list that went in, so the comparison on
    line 350 never holds, expanded wildcard or not. *)
Theorem main_stores_on_flag_only (p : platform) (h h' : store)
    (formats expanded_formats : loc) (size : option Z) (expand : bool)
    (f : string) (args_store args_format_is_none : bool) :
  call_gen_format_string p h formats size expand
    = Some (h', Return (f, expanded_formats)) ->
  main_stores h' args_store args_format_is_none formats expanded_formats
  = args_store.
Proof.
  unfold call_gen_format_string, main_stores.
  destruct (h !! formats) as [l|]; [|discriminate].
  destruct (gen_format_string p l size expand) as [l' [g|e]]; [|discriminate].
  intros [= <- <- <-].
  rewrite bool_decide_eq_true_2 by reflexivity.
  now rewrite andb_false_r, orb_false_r.
Qed.

Lemma main_stores_on_flag_only_witness :
  main_stores {[ 7%nat := ["i"; "4s:2"] ]} false true 7%nat 7%nat = false.
Proof.
  apply (main_stores_on_flag_only lp64 {[ 7%nat := ["i"; "4s:*"] ]}
           {[ 7%nat := ["i"; "4s:2"] ]} 7%nat 7%nat (Some 12) true "i4s4s" false true).
  vm_compute. reflexivity.
Defined.
